(** * ASL sign recognition: shallow embedding of the repository

    [src/model.py] builds a CNN + Transformer classifier out of framework
    layers and two layers of its own, [PositionalEncoding] and
    [TransformerBlock].  Its embedding follows the file top to bottom:

    - scalars are kept abstract behind the interface [Float], so that what
      is proved about [PositionalEncoding.call] holds for whatever
      arithmetic the framework runs (an instance over the reals and a
      symbolic one are given);
    - Python exceptions are the [Raise] branch of [result];
    - the framework's layers are embedded as the configuration their
      constructors record, after the argument check that makes a
      constructor raise, and, for evaluation, through the interface
      [Backend]; one instance computes on shapes with the framework's
      shape rules, another builds the dataflow expression.  A model is
      the chain of its layers; calling a layer on the symbolic tensor, as
      the functional API does at construction, infers the shape of one
      example and raises where the layer cannot take it.

    [src/create_database.py] contributes its statement splitter,
    [_parse_sql_commands], on ASCII strings, and
    [src/populate_database.py] its ingestion method,
    [insert_words_and_videos], as a state and exception monad over an
    abstract MySQL server and random generator, with a log of the
    statements executed. *)

From Stdlib Require Import List ZArith QArith Lia String Ascii Bool Reals Lra.
From Stdlib Require DecimalString DecimalNat.
Import ListNotations.

Local Open Scope Z_scope.

(* ===================================================================== *)
(** * Exceptions                                                          *)
(* ===================================================================== *)

(** The exceptions this file can raise: the two a Python expression of
    the source raises by itself, and the framework's [ValueError]. *)
Inductive exn : Type :=
| IndexError
| ZeroDivisionError
| ValueError (msg : string).

Inductive result (A : Type) : Type :=
| Ok (a : A)
| Raise (e : exn).
Arguments Ok {A} a.
Arguments Raise {A} e.

Definition bind {A B : Type} (c : result A) (k : A -> result B) : result B :=
  match c with
  | Ok a => k a
  | Raise e => Raise e
  end.

Notation "x <- c ;; k" := (bind c (fun x => k))
  (at level 61, c at next level, right associativity).

Definition is_ok {A : Type} (c : result A) : bool :=
  match c with Ok _ => true | Raise _ => false end.

(** Python's [l[i]] for a non-negative constant index. *)
Definition getitem {A : Type} (l : list A) (i : nat) : result A :=
  match nth_error l i with
  | Some a => Ok a
  | None => Raise IndexError
  end.

(** Python's [a // b] on ints: floor division, which is [Z.div]. *)
Definition floordiv (a b : Z) : result Z :=
  if Z.eqb b 0 then Raise ZeroDivisionError else Ok (a / b).

(* ===================================================================== *)
(** * Scalars                                                             *)
(* ===================================================================== *)

(** The float32 operations [PositionalEncoding.call] applies. *)
Class Float (T : Type) : Type := {
  of_Z : Z -> T;
  fadd : T -> T -> T;
  fmul : T -> T -> T;
  fdiv : T -> T -> T;
  ffloordiv : T -> T -> T;
  fpow : T -> T -> T;
  fsin : T -> T;
  fcos : T -> T
}.

(** Symbolic scalars: the expression the code builds, uninterpreted. *)
Inductive term : Type :=
| Const (z : Z)
| Add (a b : term)
| Mul (a b : term)
| Div (a b : term)
| FloorDiv (a b : term)
| Pow (a b : term)
| Sin (a : term)
| Cos (a : term).

#[export] Instance term_Float : Float term := {
  of_Z := Const;
  fadd := Add;
  fmul := Mul;
  fdiv := Div;
  ffloordiv := FloorDiv;
  fpow := Pow;
  fsin := Sin;
  fcos := Cos
}.

(** Idealised scalars: the real numbers. *)
#[export] Instance R_Float : Float R := {
  of_Z := IZR;
  fadd := Rplus;
  fmul := Rmult;
  fdiv := Rdiv;
  ffloordiv := fun x y => IZR (Int_part (x / y));
  fpow := Rpower;
  fsin := sin;
  fcos := cos
}.

(* ===================================================================== *)
(** * Tensors of rank 3                                                   *)
(* ===================================================================== *)

(** A batch of matrices together with its static shape
    [(batch, seq_length, d_model)], which is what [tf.shape] reads. *)
Record Tensor3 (T : Type) : Type := mkTensor3 {
  t_shape : nat * nat * nat;
  t_data : list (list (list T))
}.
Arguments mkTensor3 {T} t_shape t_data.
Arguments t_shape {T} t.
Arguments t_data {T} t.

Definition dim1 {T : Type} (x : Tensor3 T) : nat := snd (fst (t_shape x)).
Definition dim2 {T : Type} (x : Tensor3 T) : nat := snd (t_shape x).

(** [tf.range(n, dtype=tf.float32)] *)
Definition tf_range {T : Type} `{Float T} (n : nat) : list T :=
  map (fun k => of_Z (Z.of_nat k)) (seq 0 n).

(** [row[0::2]] *)
Fixpoint slice_step2 {A : Type} (l : list A) : list A :=
  match l with
  | [] => []
  | [x] => [x]
  | x :: _ :: l' => x :: slice_step2 l'
  end.

(** [m[:, 0::2]] and [m[:, 1::2]] *)
Definition even_columns {A : Type} (m : list (list A)) : list (list A) :=
  map slice_step2 m.
Definition odd_columns {A : Type} (m : list (list A)) : list (list A) :=
  map (fun row => slice_step2 (tl row)) m.

Fixpoint map2 {A B C : Type} (f : A -> B -> C) (l : list A) (l' : list B)
  : list C :=
  match l, l' with
  | a :: l, b :: l' => f a b :: map2 f l l'
  | _, _ => []
  end.

(** [tf.concat([a, b], axis=-1)] on matrices with as many rows. *)
Definition concat_last {A : Type} (a b : list (list A)) : list (list A) :=
  map2 (@app A) a b.

(* ===================================================================== *)
(** * PositionalEncoding                                                  *)
(* ===================================================================== *)

Module PositionalEncoding.

Section Call.
Context {T : Type} `{Float T}.

(** [angles[p][j]]: [positions / tf.pow(10000.0, (2 * (dimensions // 2)) /
    tf.cast(d_model, tf.float32))], the broadcast of a column of positions
    against a row of dimensions written out. *)
Definition angle (d_model : nat) (position dimension : T) : T :=
  fdiv position
       (fpow (of_Z 10000)
             (fdiv (fmul (of_Z 2) (ffloordiv dimension (of_Z 2)))
                   (of_Z (Z.of_nat d_model)))).

Definition angles (seq_length d_model : nat) : list (list T) :=
  let positions := tf_range seq_length in
  let dimensions := tf_range d_model in
  map (fun p => map (fun d => angle d_model p d) dimensions) positions.

(** The matrix [pos_encoding] of [call], from the two shape components
    the code reads off its input. *)
Definition pos_encoding (seq_length d_model : nat) : list (list T) :=
  let a := angles seq_length d_model in
  let sines := map (map fsin) (even_columns a) in
  let cosines := map (map fcos) (odd_columns a) in
  let pos := concat_last sines cosines in
  map (firstn d_model) pos.

(** The layer object: [__init__] only forwards [kwargs] to the base class,
    so the object carries nothing but what the base class keeps. *)
Record t : Type := mk { kwargs : list (string * string) }.

Definition __init__ (kwargs : list (string * string)) : t := mk kwargs.

(** The matrix a call computes before the addition. *)
Definition added_matrix (self : t) (inputs : Tensor3 T) : list (list T) :=
  let seq_length := dim1 inputs in
  let d_model := dim2 inputs in
  pos_encoding seq_length d_model.

(** [inputs + m]: a matrix broadcast over the batch axis. *)
Definition add_broadcast (inputs : Tensor3 T) (m : list (list T))
  : Tensor3 T :=
  mkTensor3 (t_shape inputs)
            (map (fun x => map2 (map2 fadd) x m) (t_data inputs)).

(** [call(self, inputs)], in state-passing form: the object after the call
    and the returned tensor. *)
Definition call (self : t) (inputs : Tensor3 T) : t * Tensor3 T :=
  (self, add_broadcast inputs (added_matrix self inputs)).

(** [get_config(self)] returns the base class's configuration. *)
Definition get_config (self : t) : list (string * string) := kwargs self.

End Call.

End PositionalEncoding.

(* ===================================================================== *)
(** * The framework's layers                                              *)
(* ===================================================================== *)

Module layers.

Inductive activation : Type := linear | relu | softmax.
Inductive padding : Type := same | valid.

Record MultiHeadAttention : Type :=
  { mha_num_heads : Z; key_dim : Z }.
Record Dense : Type :=
  { units : Z; dense_activation : activation }.
Record LayerNormalization : Type :=
  { epsilon : Q }.
Record Dropout : Type :=
  { rate : Q }.
Record Conv1D : Type :=
  { filters : Z; kernel_size : Z; conv_activation : activation;
    conv_padding : padding }.
Record MaxPooling1D : Type :=
  { pool_size : Z }.
Record Input : Type :=
  { shape : list Z }.

(** The constructors.  Each records its arguments, after the check that
    makes the framework raise [ValueError] on a width, a head count or a
    window that is not positive, or on a dropout rate outside [0, 1]. *)
Definition MultiHeadAttention_init (num_heads key_dim : Z)
  : result MultiHeadAttention :=
  if (1 <=? num_heads) && (1 <=? key_dim)
  then Ok {| mha_num_heads := num_heads; key_dim := key_dim |}
  else Raise (ValueError "num_heads and key_dim must be positive").

Definition Dense_init (units : Z) (activation : activation) : result Dense :=
  if 1 <=? units
  then Ok {| units := units; dense_activation := activation |}
  else Raise (ValueError "units must be positive").

Definition Dropout_init (rate : Q) : result Dropout :=
  if Qle_bool 0 rate && Qle_bool rate 1
  then Ok {| rate := rate |}
  else Raise (ValueError "rate must be in [0, 1]").

Definition Conv1D_init (filters kernel_size : Z) (activation : activation)
  (padding : padding) : result Conv1D :=
  if (1 <=? filters) && (1 <=? kernel_size)
  then Ok {| filters := filters; kernel_size := kernel_size;
             conv_activation := activation; conv_padding := padding |}
  else Raise (ValueError "filters and kernel_size must be positive").

Definition MaxPooling1D_init (pool_size : Z) : result MaxPooling1D :=
  if 1 <=? pool_size
  then Ok {| pool_size := pool_size |}
  else Raise (ValueError "pool_size must be positive").

End layers.
Import layers.

(** What evaluating the framework's layers does, on a domain [X] of
    tensors: the operations [TransformerBlock.call] invokes. *)
Class Backend (X : Type) : Type := {
  MultiHeadAttention_call : MultiHeadAttention -> X -> X -> result X;
  Dense_call : Dense -> X -> result X;
  LayerNormalization_call : LayerNormalization -> X -> result X;
  Dropout_call : Dropout -> X -> bool -> result X;
  tensor_add : X -> X -> result X
}.

(** [tf.keras.Sequential([...])] of dense layers, applied in order. *)
Fixpoint Sequential_call {X : Type} `{Backend X} (ls : list Dense) (x : X)
  : result X :=
  match ls with
  | [] => Ok x
  | l :: ls' => y <- Dense_call l x ;; Sequential_call ls' y
  end.

(* ===================================================================== *)
(** * TransformerBlock                                                    *)
(* ===================================================================== *)

Module TransformerBlock.

Record t : Type := mk {
  embed_dim : Z;
  num_heads : Z;
  ff_dim : Z;
  dropout_rate : Q;
  attention : MultiHeadAttention;
  ffn : list Dense;
  layernorm1 : LayerNormalization;
  layernorm2 : LayerNormalization;
  dropout1 : Dropout;
  dropout2 : Dropout
}.

(** [dropout_rate=0.1] *)
Definition default_dropout_rate : Q := 1 # 10.

(** The constructor has no check of its own; it fails where
    [embed_dim // num_heads] or one of the five layer constructors it
    calls does, in the order of the source. *)
Definition __init__ (embed_dim num_heads ff_dim : Z)
  (dropout_rate : option Q) : result t :=
  let dropout_rate :=
    match dropout_rate with Some r => r | None => default_dropout_rate end in
  kd <- floordiv embed_dim num_heads ;;
  attention <- MultiHeadAttention_init num_heads kd ;;
  ffn_1 <- Dense_init ff_dim relu ;;
  ffn_2 <- Dense_init embed_dim linear ;;
  let layernorm1 := {| epsilon := 1 # 1000000 |} in
  let layernorm2 := {| epsilon := 1 # 1000000 |} in
  dropout1 <- Dropout_init dropout_rate ;;
  dropout2 <- Dropout_init dropout_rate ;;
  Ok {| embed_dim := embed_dim;
        num_heads := num_heads;
        ff_dim := ff_dim;
        dropout_rate := dropout_rate;
        attention := attention;
        ffn := [ ffn_1; ffn_2 ];
        layernorm1 := layernorm1;
        layernorm2 := layernorm2;
        dropout1 := dropout1;
        dropout2 := dropout2 |}.

Section Call.
Context {X : Type} `{Backend X}.

(** [call(self, inputs, training=False)]; [None] is the omitted flag. *)
Definition call (self : t) (inputs : X) (training : option bool)
  : result X :=
  let training := match training with Some b => b | None => false end in
  attention_output <-
    MultiHeadAttention_call (attention self) inputs inputs ;;
  attention_output <-
    Dropout_call (dropout1 self) attention_output training ;;
  s <- tensor_add inputs attention_output ;;
  x <- LayerNormalization_call (layernorm1 self) s ;;
  ffn_output <- Sequential_call (ffn self) x ;;
  ffn_output <- Dropout_call (dropout2 self) ffn_output training ;;
  s' <- tensor_add x ffn_output ;;
  LayerNormalization_call (layernorm2 self) s'.

(** The same pipeline with the two dropout applications left out. *)
Definition call_without_dropout (self : t) (inputs : X) : result X :=
  attention_output <-
    MultiHeadAttention_call (attention self) inputs inputs ;;
  s <- tensor_add inputs attention_output ;;
  x <- LayerNormalization_call (layernorm1 self) s ;;
  ffn_output <- Sequential_call (ffn self) x ;;
  s' <- tensor_add x ffn_output ;;
  LayerNormalization_call (layernorm2 self) s'.

End Call.

(** [get_config(self)]: the four constructor arguments. *)
Definition get_config (self : t) : Z * Z * Z * Q :=
  (embed_dim self, num_heads self, ff_dim self, dropout_rate self).

End TransformerBlock.

(* ===================================================================== *)
(** * Evaluation on shapes                                                *)
(* ===================================================================== *)

(** The framework's shape rules, for the layers the model uses.  A shape
    is the list of its dimensions. *)

(** [conv_utils.conv_output_length(input_length, filter_size, padding,
    stride)], with the default dilation of 1. *)
Definition conv_output_length (input_length filter_size : Z)
  (pad : padding) (stride : Z) : result Z :=
  let dilated_filter_size := filter_size + (filter_size - 1) * (1 - 1) in
  let output_length :=
    match pad with
    | same => input_length
    | valid => input_length - dilated_filter_size + 1
    end in
  floordiv (output_length + stride - 1) stride.

(** A convolution or a pooling whose window finds no place in the
    sequence has no output: the framework raises. *)
Definition output_length (input_length filter_size : Z) (pad : padding)
  (stride : Z) : result Z :=
  len <- conv_output_length input_length filter_size pad stride ;;
  if 1 <=? len then Ok len
  else Raise (ValueError "the computed output would be empty").

(** Broadcasting of two shapes, aligned on the last dimension; the
    arguments are the reversed shapes. *)
Fixpoint broadcast_rev (a b : list Z) : result (list Z) :=
  match a, b with
  | [], _ => Ok b
  | _, [] => Ok a
  | x :: a', y :: b' =>
      r <- broadcast_rev a' b' ;;
      if Z.eqb x y then Ok (x :: r)
      else if Z.eqb x 1 then Ok (y :: r)
      else if Z.eqb y 1 then Ok (x :: r)
      else Raise (ValueError "shapes cannot be broadcast")
  end.

Definition broadcast (a b : list Z) : result (list Z) :=
  r <- broadcast_rev (rev a) (rev b) ;; Ok (rev r).

Definition Dense_shape (d : Dense) (s : list Z) : result (list Z) :=
  match s with
  | [] => Raise (ValueError "Dense expects an input of rank at least 1")
  | _ => Ok (removelast s ++ [units d])
  end.

#[export] Instance shape_Backend : Backend (list Z) := {
  MultiHeadAttention_call := fun _ query _ => Ok query;
  Dense_call := Dense_shape;
  LayerNormalization_call := fun _ s => Ok s;
  Dropout_call := fun _ s _ => Ok s;
  tensor_add := broadcast
}.

(** The shape of [PositionalEncoding.call]'s result on sequences of shape
    [s], the batch dimension left out: [seq_length] and [d_model] are the
    two dimensions of a sequence, [sines] has the columns [0::2] of
    [d_model] columns, [cosines] the columns [1::2], and their
    concatenation is cut to [d_model] columns before the addition. *)
Definition PositionalEncoding_shape (s : list Z) : result (list Z) :=
  match nth_error s 0, nth_error s 1 with
  | Some seq_length, Some d_model =>
      let sines := (d_model + 1) / 2 in
      let cosines := d_model / 2 in
      let pos_encoding := [seq_length; Z.min d_model (sines + cosines)] in
      broadcast s pos_encoding
  | _, _ => Raise (ValueError "slice index out of bounds")
  end.

(* ===================================================================== *)
(** * The model                                                           *)
(* ===================================================================== *)

(** A layer of the model graph.  The graph [build_asl_model] wires is a
    chain, so a model is its input declaration and the list of layers in
    the order they are applied, each under its [name].  A convolution and
    a dense layer carry the input width their kernel was created for,
    which the functional API fixes when the layer is called on the
    symbolic tensor. *)
Inductive Layer : Type :=
| LConv1D (c : Conv1D) (input_channels : Z)
| LBatchNormalization
| LMaxPooling1D (p : MaxPooling1D)
| LDense (d : Dense) (input_dim : Z)
| LPositionalEncoding
| LDropout (d : Dropout)
| LTransformerBlock (b : TransformerBlock.t)
| LGlobalAveragePooling1D.

(** One layer applied to sequences of shape [s], the batch dimension
    left out; this is also what calling the layer on a symbolic tensor
    infers.  The framework hands the mode of the model call on to every
    layer whose [call] takes [training]. *)
Definition Layer_shape (l : Layer) (s : list Z) (training : bool)
  : result (list Z) :=
  match l with
  | LConv1D c input_channels =>
      match s with
      | [steps; channels] =>
          if (channels =? input_channels) && (1 <=? channels) then
            len <- output_length steps (kernel_size c) (conv_padding c) 1 ;;
            Ok [len; filters c]
          else Raise (ValueError "Conv1D: the channels are not the kernel's")
      | _ => Raise (ValueError "Conv1D expects a batch of sequences")
      end
  | LBatchNormalization => Ok s
  | LMaxPooling1D p =>
      match s with
      | [steps; features] =>
          len <- output_length steps (pool_size p) valid (pool_size p) ;;
          Ok [len; features]
      | _ => Raise (ValueError "MaxPooling1D expects a batch of sequences")
      end
  | LDense d input_dim =>
      if last s 0 =? input_dim then Dense_call d s
      else Raise (ValueError "Dense: the width is not the kernel's")
  | LPositionalEncoding => PositionalEncoding_shape s
  | LDropout d => Dropout_call d s training
  | LTransformerBlock blk => TransformerBlock.call blk s (Some training)
  | LGlobalAveragePooling1D =>
      match s with
      | [_; features] => Ok [features]
      | _ =>
          Raise (ValueError
                   "GlobalAveragePooling1D expects a batch of sequences")
      end
  end.

(** One layer of the graph applied to a batch of shape [s], batch
    dimension first.  The convolution kernel refuses an empty batch. *)
Definition Layer_call (l : Layer) (s : list Z) (training : bool)
  : result (list Z) :=
  match s with
  | [] => Raise (ValueError "a batch has a batch dimension")
  | b :: per_example =>
      _ <- match l with
           | LConv1D _ _ =>
               if 1 <=? b then Ok tt
               else Raise (ValueError "Conv1D: the batch is empty")
           | _ => Ok tt
           end ;;
      s' <- Layer_shape l per_example training ;;
      Ok (b :: s')
  end.

Inductive Metric : Type :=
| MetricName (alias : string)
| TopKCategoricalAccuracy (k : Z) (name : string).

Inductive Optimizer : Type :=
| Adam (learning_rate : Q).

Record Compiled : Type := {
  optimizer : Optimizer;
  loss : string;
  metrics : list Metric
}.

Record Model : Type := {
  model_name : string;
  model_inputs : string * Input;
  model_layers : list (string * Layer);
  model_compiled : option Compiled
}.

(** The width of a symbolic tensor, for which a kernel is created. *)
Definition channels (x : list Z) : Z := last x 0.

(** Every [x = layers.L(...)(x)] of the source is three steps: the
    arguments are evaluated, the constructor checks them, and the call on
    the symbolic tensor creates the weights and infers the shape of the
    result, raising where the layer cannot take its input. *)
Definition build_asl_model
  (num_frames num_landmarks num_classes : Z) (cnn_filters : list Z)
  (transformer_heads transformer_dim ff_dim : Z) (dropout_rate : Q)
  : result Model :=
  let inputs :=
    ("landmark_input", {| shape := [num_frames; num_landmarks] |})%string in
  let x := [num_frames; num_landmarks] in
  f0 <- getitem cnn_filters 0 ;;
  c <- Conv1D_init f0 3 relu same ;;
  let conv1d_1 := LConv1D c (channels x) in
  x <- Layer_shape conv1d_1 x false ;;
  let bn_1 := LBatchNormalization in
  x <- Layer_shape bn_1 x false ;;
  f1 <- getitem cnn_filters 1 ;;
  c <- Conv1D_init f1 3 relu same ;;
  let conv1d_2 := LConv1D c (channels x) in
  x <- Layer_shape conv1d_2 x false ;;
  let bn_2 := LBatchNormalization in
  x <- Layer_shape bn_2 x false ;;
  p <- MaxPooling1D_init 2 ;;
  let maxpool := LMaxPooling1D p in
  x <- Layer_shape maxpool x false ;;
  d <- Dense_init transformer_dim linear ;;
  let projection := LDense d (channels x) in
  x <- Layer_shape projection x false ;;
  let positional_encoding := LPositionalEncoding in
  x <- Layer_shape positional_encoding x false ;;
  d <- Dropout_init dropout_rate ;;
  let pos_dropout := LDropout d in
  x <- Layer_shape pos_dropout x false ;;
  block <- TransformerBlock.__init__ transformer_dim transformer_heads
             ff_dim (Some dropout_rate) ;;
  let transformer_block := LTransformerBlock block in
  x <- Layer_shape transformer_block x false ;;
  let global_avg_pool := LGlobalAveragePooling1D in
  x <- Layer_shape global_avg_pool x false ;;
  d <- Dense_init 256 relu ;;
  let dense_1 := LDense d (channels x) in
  x <- Layer_shape dense_1 x false ;;
  d <- Dropout_init dropout_rate ;;
  let dropout_1 := LDropout d in
  x <- Layer_shape dropout_1 x false ;;
  d <- Dense_init 128 relu ;;
  let dense_2 := LDense d (channels x) in
  x <- Layer_shape dense_2 x false ;;
  d <- Dropout_init dropout_rate ;;
  let dropout_2 := LDropout d in
  x <- Layer_shape dropout_2 x false ;;
  d <- Dense_init num_classes softmax ;;
  let output := LDense d (channels x) in
  outputs <- Layer_shape output x false ;;
  Ok {| model_name := "ASL_CNN_Transformer";
        model_inputs := inputs;
        model_layers :=
          [ ("conv1d_1", conv1d_1); ("bn_1", bn_1);
            ("conv1d_2", conv1d_2); ("bn_2", bn_2);
            ("maxpool", maxpool);
            ("projection", projection);
            ("positional_encoding", positional_encoding);
            ("pos_dropout", pos_dropout);
            ("transformer_block", transformer_block);
            ("global_avg_pool", global_avg_pool);
            ("dense_1", dense_1); ("dropout_1", dropout_1);
            ("dense_2", dense_2); ("dropout_2", dropout_2);
            ("output", output) ]%string;
        model_compiled := None |}.

(** The call of the [__main__] block, which repeats the defaults. *)
Definition build_asl_model_default : result Model :=
  build_asl_model 30 63 100 [64; 128] 4 128 256 (3 # 10).

(** [learning_rate=0.001] *)
Definition default_learning_rate : Q := 1 # 1000.

Definition compile_model (model : Model) (learning_rate : option Q)
  : Model :=
  let learning_rate :=
    match learning_rate with
    | Some r => r
    | None => default_learning_rate
    end in
  {| model_name := model_name model;
     model_inputs := model_inputs model;
     model_layers := model_layers model;
     model_compiled :=
       Some {| optimizer := Adam learning_rate;
               loss := "categorical_crossentropy";
               metrics := [ MetricName "accuracy";
                            TopKCategoricalAccuracy 5 "top5_accuracy" ]
            |} |}.

Fixpoint Layers_call (ls : list (string * Layer)) (s : list Z)
  (training : bool) : result (list Z) :=
  match ls with
  | [] => Ok s
  | (_, l) :: ls' =>
      s' <- Layer_call l s training ;; Layers_call ls' s' training
  end.

(** Forward evaluation of a model on a batch of shape [s]: the chain of
    its layers.  What the framework does with a batch before the first
    layer sees it is not in the repository and is left out: what is
    proved of [Model_call] is proved of the layers. *)
Definition Model_call (m : Model) (s : list Z) (training : bool)
  : result (list Z) :=
  Layers_call (model_layers m) s training.

(** The CNN block of [build_asl_model]: the two convolution stages with
    their normalisations, and the pooling. *)
Definition cnn_block (m : Model) : list (string * Layer) :=
  firstn 5 (model_layers m).

Definition find_layer (name : string) (m : Model) : option Layer :=
  match find (fun nl => String.eqb (fst nl) name) (model_layers m) with
  | Some nl => Some (snd nl)
  | None => None
  end.

(* ===================================================================== *)
(** * Evaluation on dataflow expressions                                  *)
(* ===================================================================== *)

(** The free backend: a tensor is the expression that computes it.  Its
    dropout is a node of the expression in training mode and the identity
    outside it, which is the framework's dropout. *)
Inductive expr : Type :=
| EInput (name : string)
| EAttention (l : MultiHeadAttention) (query value : expr)
| EDense (l : Dense) (x : expr)
| ELayerNormalization (l : LayerNormalization) (x : expr)
| EDropout (l : Dropout) (x : expr)
| EAdd (a b : expr).

#[export] Instance expr_Backend : Backend expr := {
  MultiHeadAttention_call := fun l query value => Ok (EAttention l query value);
  Dense_call := fun l x => Ok (EDense l x);
  LayerNormalization_call := fun l x => Ok (ELayerNormalization l x);
  Dropout_call := fun l x training => Ok (if training then EDropout l x else x);
  tensor_add := fun a b => Ok (EAdd a b)
}.

(** Row [p] of [pos_encoding], before the cut to [d_model] columns: the
    sines of the even columns of [angles], then the cosines of the odd
    ones. *)
Definition pos_row {T : Type} `{Float T} (d_model : nat) (p : T) : list T :=
  let row := map (PositionalEncoding.angle d_model p) (tf_range d_model) in
  map fsin (slice_step2 row) ++ map fcos (slice_step2 (tl row)).

(* ===================================================================== *)
(** * Concrete inputs                                                     *)
(* ===================================================================== *)

(** The block and the model of the [__main__] run. *)
Definition example_block : TransformerBlock.t :=
  TransformerBlock.mk 128 4 256 (3 # 10)
    {| mha_num_heads := 4; key_dim := 32 |}
    [ {| units := 256; dense_activation := relu |};
      {| units := 128; dense_activation := linear |} ]
    {| epsilon := 1 # 1000000 |} {| epsilon := 1 # 1000000 |}
    {| rate := 3 # 10 |} {| rate := 3 # 10 |}.

Definition default_model : Model :=
  match build_asl_model_default with
  | Ok m => m
  | Raise _ =>
      {| model_name := ""; model_inputs := (""%string, {| shape := [] |});
         model_layers := []; model_compiled := None |}
  end.

(** Two layer objects and two batches of sequences of length 1 and
    width 2, of one and of two examples. *)
Definition example_layer_1 : PositionalEncoding.t :=
  PositionalEncoding.__init__ [("name", "positional_encoding")]%string.
Definition example_layer_2 : PositionalEncoding.t :=
  PositionalEncoding.__init__ [].
Definition example_x : Tensor3 term :=
  mkTensor3 (1, 1, 2)%nat [ [ [Const 5; Const 6] ] ].
Definition example_y : Tensor3 term :=
  mkTensor3 (2, 1, 2)%nat
    [ [ [Const 7; Const 8] ]; [ [Const 9; Const 10] ] ].

(** Arguments the framework's layers accept.  A block: at least one head
    and no more heads than channels, so that the per-head width
    [embed_dim // num_heads] is at least 1, a positive feed-forward width
    and a dropout rate in [0, 1].  A model: at least two frames, so that
    the pooled sequence is not empty, positive widths and class count,
    and the arguments of a block. *)
Definition dropout_of (r : option Q) : Q :=
  match r with
  | Some q => q
  | None => TransformerBlock.default_dropout_rate
  end.

Definition sane_block (e h f : Z) (r : Q) : Prop :=
  1 <= h <= e /\ 1 <= f /\ (0 <= r)%Q /\ (r <= 1)%Q.

Definition sane_arguments (nf nl nc : Z) (cf : list Z) (h d ff : Z) (r : Q)
  : Prop :=
  2 <= nf /\ 1 <= nl /\ 1 <= nc /\ Forall (fun f => 1 <= f) cf
  /\ sane_block d h ff r.

(** The arguments the framework sees before the block is constructed. *)
Definition sane_before_block (nf nl : Z) (cf : list Z) (d : Z) (r : Q)
  : Prop :=
  2 <= nf /\ 1 <= nl /\ Forall (fun f => 1 <= f) cf /\ 1 <= d
  /\ (0 <= r)%Q /\ (r <= 1)%Q.

(** Reading a tensor: entry [(b, p, i)] of the data, and entry [(p, i)]
    of a matrix. *)
Definition get2 {A : Type} (m : list (list A)) (p i : nat) : option A :=
  match nth_error m p with
  | Some row => nth_error row i
  | None => None
  end.

Definition get3 {A : Type} (d : list (list (list A))) (b p i : nat)
  : option A :=
  match nth_error d b with
  | Some m => get2 m p i
  | None => None
  end.

(** The data of a tensor fills its static shape. *)
Definition well_formed {T : Type} (x : Tensor3 T) : Prop :=
  let '(b, l, d) := t_shape x in
  List.length (t_data x) = b
  /\ Forall (fun m => List.length m = l
                     /\ Forall (fun row => List.length row = d) m)
            (t_data x).

(* ===================================================================== *)
(** * create_database.py: the statement splitter                          *)
(* ===================================================================== *)

(** Python strings are embedded as [string]; the characters are the ASCII
    ones, on which [strip] and [upper] are as below. *)
Module create_database.

Local Open Scope string_scope.

(** The characters [str.strip()] removes: tab to carriage return, the
    four separators 28 to 31, and the space. *)
Definition is_space (c : ascii) : bool :=
  let n := nat_of_ascii c in
  ((9 <=? n)%nat && (n <=? 13)%nat) || ((28 <=? n)%nat && (n <=? 32)%nat).

Fixpoint lstrip (s : string) : string :=
  match s with
  | EmptyString => EmptyString
  | String c s' => if is_space c then lstrip s' else s
  end.

Fixpoint rstrip (s : string) : string :=
  match s with
  | EmptyString => EmptyString
  | String c s' =>
      match rstrip s' with
      | EmptyString => if is_space c then EmptyString else String c EmptyString
      | r => String c r
      end
  end.

(** [s.strip()] *)
Definition strip (s : string) : string := rstrip (lstrip s).

(** [s.upper()] *)
Definition upper_char (c : ascii) : ascii :=
  let n := nat_of_ascii c in
  if ((97 <=? n)%nat && (n <=? 122)%nat) then ascii_of_nat (n - 32) else c.

Fixpoint upper (s : string) : string :=
  match s with
  | EmptyString => EmptyString
  | String c s' => String (upper_char c) (upper s')
  end.

(** [s.startswith(p)] and [s.endswith(p)] *)
Definition startswith (s p : string) : bool := String.prefix p s.

Fixpoint endswith (s p : string) : bool :=
  if String.eqb s p then true
  else match s with
       | EmptyString => false
       | String _ s' => endswith s' p
       end.

(** [s.split(c)] for a separator of one character. *)
Fixpoint split (s : string) (sep : ascii) : list string :=
  match s with
  | EmptyString => [EmptyString]
  | String c s' =>
      if Ascii.eqb c sep then EmptyString :: split s' sep
      else match split s' sep with
           | piece :: pieces => String c piece :: pieces
           | [] => [String c EmptyString]
           end
  end.

(** [sep.join(l)] *)
Fixpoint join (sep : string) (l : list string) : string :=
  match l with
  | [] => EmptyString
  | [x] => x
  | x :: l' => x ++ sep ++ join sep l'
  end.

Definition newline : ascii := ascii_of_nat 10.

(** The three tests of the loop body that make it [continue]: a comment,
    a blank line, a DELIMITER, USE or SHOW line. *)
Definition skipped (line : string) : bool :=
  (startswith (strip line) "--" || startswith (strip line) "#")
  || (match strip line with EmptyString => true | _ => false end)
  || existsb (fun x => startswith (upper (strip line)) x)
             ["DELIMITER"; "USE "; "SHOW "].

(** The test that closes a command. *)
Definition closes (line : string) : bool := endswith (strip line) ";".

(** The loop of [_parse_sql_commands] over the remaining lines, with the
    two lists it updates. *)
Fixpoint parse_loop (lines commands current_command : list string)
  : list string :=
  match lines with
  | [] => commands
  | line :: rest =>
      if startswith (strip line) "--" || startswith (strip line) "#"
      then parse_loop rest commands current_command
      else if match strip line with EmptyString => true | _ => false end
      then parse_loop rest commands current_command
      else if existsb (fun x => startswith (upper (strip line)) x)
                      ["DELIMITER"; "USE "; "SHOW "]
      then parse_loop rest commands current_command
      else
        let current_command := (current_command ++ [line])%list in
        if endswith (strip line) ";"
        then
          let command := join (String newline EmptyString) current_command in
          parse_loop rest (commands ++ [command])%list []
        else parse_loop rest commands current_command
  end.

Definition _parse_sql_commands (sql_text : string) : list string :=
  parse_loop (split sql_text newline) [] [].

(** The lines that make up each command: the loop again, keeping every
    command as the list of its lines instead of joining them. *)
Fixpoint command_lines (lines current_command : list string)
  : list (list string) :=
  match lines with
  | [] => []
  | line :: rest =>
      if skipped line then command_lines rest current_command
      else if closes line
      then (current_command ++ [line])%list :: command_lines rest []
      else command_lines rest (current_command ++ [line])%list
  end.

(** The lines still open when the loop ends: they are in no command. *)
Fixpoint pending_lines (lines current_command : list string)
  : list string :=
  match lines with
  | [] => current_command
  | line :: rest =>
      if skipped line then pending_lines rest current_command
      else if closes line then pending_lines rest []
      else pending_lines rest (current_command ++ [line])%list
  end.

(** A line that enters a command without closing it. *)
Definition stays_open (line : string) : Prop :=
  skipped line = false /\ closes line = false.

(** A command, as its lines: lines that stay open, then one that
    closes. *)
Definition closed_command (g : list string) : Prop :=
  exists body last,
    g = (body ++ [last])%list
    /\ Forall stays_open body
    /\ skipped last = false
    /\ closes last = true.

Fixpoint has_char (c : ascii) (s : string) : bool :=
  match s with
  | EmptyString => false
  | String c' s' => Ascii.eqb c' c || has_char c s'
  end.

(** The texts the embedding stands for: those of ASCII characters. *)
Fixpoint ascii_only (s : string) : bool :=
  match s with
  | EmptyString => true
  | String c s' => (nat_of_ascii c <? 128)%nat && ascii_only s'
  end.

Definition example_schema : string :=
  join (String newline EmptyString)
    [ "-- schema"; "CREATE TABLE words ("; "  id INT"; ");"; "";
      "USE asl_recognition;"; "SELECT 1;  "; "SELECT 2" ].

End create_database.

(* ===================================================================== *)
(** * populate_database.py: ingestion                                     *)
(* ===================================================================== *)

(** [WLASLDatabaseManager.insert_words_and_videos].  The parsed JSON is
    embedded with the types the WLASL file has for the keys the method
    reads; the MySQL server and [random.random] are the environment, kept
    abstract behind [Environment]; the statements the method gets
    executed are recorded, with the server's replies, in a log. *)
Module populate_database.

(** A key of a JSON object: absent, present with [null], or present with
    a value. *)
Inductive field (A : Type) : Type :=
| Missing
| Null
| Value (a : A).
Arguments Missing {A}.
Arguments Null {A}.
Arguments Value {A} a.

(** [d.get(key)] and [d.get(key, default)] *)
Definition get {A : Type} (f : field A) : option A :=
  match f with
  | Value a => Some a
  | Missing | Null => None
  end.

Definition get_default {A : Type} (f : field A) (default : A) : option A :=
  match f with
  | Value a => Some a
  | Missing => Some default
  | Null => None
  end.

Record Instance : Type := {
  video_id : field string;
  url : field string;
  fps : field Z;
  frame_start : field Z;
  frame_end : field Z;
  signer_id : field Z
}.

Record Entry : Type := {
  gloss : field string;
  instances : field (list Instance)
}.

Inductive Split : Type := train | val | test.

(** The float [(frame_end - frame_start) / fps], kept as the two integers
    it is the quotient of. *)
Record Quotient : Type := { numerator : Z; denominator : Z }.

(** The parameters of the INSERT INTO videos statement, in its order. *)
Record VideoRow : Type := {
  row_word_id : Z;
  row_video_id : option string;
  row_video_url : option string;
  row_duration_sec : option Quotient;
  row_fps : option Z;
  row_signer_id : option Z;
  row_split : Split;
  row_downloaded : bool;
  row_processed : bool
}.

Inductive Statement : Type :=
| InsertWord (gloss : option string) (sample_count : Z)
| SelectWordId (gloss : option string)
| InsertVideo (row : VideoRow)
| Commit
| Rollback.

(** What the server answers to a statement: [cursor.lastrowid] and the
    first column of [cursor.fetchone()], if there is a row. *)
Record Reply : Type := { lastrowid : Z; fetchone : option Z }.

(** The server and the random generator: [run] executes a statement on a
    database state and answers, or raises [mysql.connector.Error]
    ([None]); [random n] is what the n-th call of [random.random()]
    returns, a float in [0, 1) given by its exact value. *)
Class Environment (DB : Type) : Type := {
  run : DB -> Statement -> option (DB * Reply);
  random : nat -> Q
}.

Record Executed : Type := { statement : Statement; reply : Reply }.

Record State (DB : Type) : Type := {
  db : DB;
  log : list Executed;
  draws : nat
}.
Arguments db {DB} s.
Arguments log {DB} s.
Arguments draws {DB} s.

(** The exceptions of the method: the connector's [Error], which the
    method catches, and the [TypeError] of [None[0]], which it does not. *)
Inductive Failure : Type := Error | TypeError.

Definition M (DB A : Type) : Type := State DB -> (A + Failure) * State DB.

Definition ret {DB A : Type} (a : A) : M DB A := fun s => (inl a, s).

Definition raise {DB A : Type} (e : Failure) : M DB A :=
  fun s => (inr e, s).

Definition bindM {DB A B : Type} (c : M DB A) (k : A -> M DB B) : M DB B :=
  fun s =>
    match c s with
    | (inl a, s') => k a s'
    | (inr e, s') => (inr e, s')
    end.

Notation "x <~ c ;; k" := (bindM c (fun x => k))
  (at level 61, c at next level, right associativity).

Section Ingestion.
Context {DB : Type} `{Environment DB}.

(** [self.cursor.execute(...)] or [self.connection.commit()] *)
Definition execute (stmt : Statement) : M DB Reply :=
  fun s =>
    match run (db s) stmt with
    | Some (d, r) =>
        (inl r, {| db := d;
                   log := log s ++ [{| statement := stmt; reply := r |}];
                   draws := draws s |})
    | None => (inr Error, s)
    end.

(** [random.random()] *)
Definition draw : M DB Q :=
  fun s => (inl (random (draws s)),
            {| db := db s; log := log s; draws := S (draws s) |}).

(** The floats 0.70 and 0.85, by their exact values. *)
Definition threshold_train : Q := 3152519739159347 # 4503599627370496.
Definition threshold_val : Q := 7656119366529843 # 9007199254740992.

Definition Qlt_bool (x y : Q) : bool := negb (Qle_bool y x).

Definition assign_split (rand : Q) : Split :=
  if Qlt_bool rand threshold_train then train
  else if Qlt_bool rand threshold_val then val
  else test.

(** [f"{gloss}_{idx}"] *)
Definition default_video_id (gloss : option string) (idx : nat) : string :=
  ((match gloss with Some g => g | None => "None" end)
   ++ "_" ++ DecimalString.NilEmpty.string_of_uint (Nat.to_uint idx))%string.

Definition duration (instance : Instance) : option Quotient :=
  match get (fps instance), get (frame_start instance),
        get (frame_end instance) with
  | Some f, Some fs, Some fe =>
      if Z.eqb f 0 then None
      else Some {| numerator := fe - fs; denominator := f |}
  | _, _, _ => None
  end.

(** The inner loop, [for idx, instance in enumerate(instances)], from
    index [idx] on; it returns [total_videos]. *)
Fixpoint insert_videos (gloss : option string) (word_id : Z)
  (instances : list Instance) (idx : nat) (total_videos : Z) : M DB Z :=
  match instances with
  | [] => ret total_videos
  | instance :: rest =>
      rand <~ draw ;;
      _ <~ execute (InsertVideo
             {| row_word_id := word_id;
                row_video_id :=
                  get_default (video_id instance)
                              (default_video_id gloss idx);
                row_video_url := get_default (url instance) ""%string;
                row_duration_sec := duration instance;
                row_fps := get (fps instance);
                row_signer_id := get (signer_id instance);
                row_split := assign_split rand;
                row_downloaded := false;
                row_processed := false |}) ;;
      insert_videos gloss word_id rest (S idx) (total_videos + 1)
  end.

(** The outer loop, [for entry in wlasl_data]; it returns
    [(total_words, total_videos, skipped_words)]. *)
Fixpoint insert_entries (wlasl_data : list Entry)
  (total_words total_videos skipped_words : Z) : M DB (Z * Z * Z) :=
  match wlasl_data with
  | [] => ret (total_words, total_videos, skipped_words)
  | entry :: rest =>
      let gloss := get (gloss entry) in
      match get_default (instances entry) [] with
      | None | Some [] =>
          insert_entries rest total_words total_videos (skipped_words + 1)
      | Some instances =>
          let sample_count := Z.of_nat (List.length instances) in
          r <~ execute (InsertWord gloss sample_count) ;;
          word_id <~ (if Z.eqb (lastrowid r) 0
                      then
                        r' <~ execute (SelectWordId gloss) ;;
                        match fetchone r' with
                        | Some id => ret id
                        | None => raise TypeError
                        end
                      else ret (lastrowid r)) ;;
          let total_words := total_words + 1 in
          total_videos <~
            insert_videos gloss word_id instances 0 total_videos ;;
          _ <~ (if Z.eqb (total_words mod 100) 0
                then execute Commit
                else ret {| lastrowid := 0; fetchone := None |}) ;;
          insert_entries rest total_words total_videos skipped_words
      end
  end.

(** The end of a turn of the outer loop, once the word has its id: the
    inner loop and the commit test, [total_words] being already
    incremented. *)
Definition videos_and_commit (gloss : option string) (word_id : Z)
  (instances : list Instance) (total_words total_videos : Z)
  : M DB (Z * Z) :=
  total_videos <~ insert_videos gloss word_id instances 0 total_videos ;;
  _ <~ (if Z.eqb (total_words mod 100) 0
        then execute Commit
        else ret {| lastrowid := 0; fetchone := None |}) ;;
  ret (total_words, total_videos).

(** One turn of the outer loop on an entry that has instances, from the
    INSERT of the word on; it returns [(total_words, total_videos)]. *)
Definition insert_word (gloss : option string) (instances : list Instance)
  (total_words total_videos : Z) : M DB (Z * Z) :=
  let sample_count := Z.of_nat (List.length instances) in
  r <~ execute (InsertWord gloss sample_count) ;;
  word_id <~ (if Z.eqb (lastrowid r) 0
              then
                r' <~ execute (SelectWordId gloss) ;;
                match fetchone r' with
                | Some id => ret id
                | None => raise TypeError
                end
              else ret (lastrowid r)) ;;
  videos_and_commit gloss word_id instances (total_words + 1) total_videos.

(** How the method ends: the summary printed after the final commit; the
    rollback of the [except Error] branch; or an exception that leaves
    the method, the uncaught [TypeError] or an [Error] of the rollback
    itself. *)
Inductive Outcome : Type :=
| Finished (total_words skipped_words total_videos : Z) (s : State DB)
| RolledBack (s : State DB)
| Uncaught (e : Failure) (s : State DB).

(** The body of the [try]: the outer loop and the final commit. *)
Definition try_block (wlasl_data : list Entry) : M DB (Z * Z * Z) :=
  counters <~ insert_entries wlasl_data 0 0 0 ;;
  _ <~ execute Commit ;;
  ret counters.

Definition insert_words_and_videos (wlasl_data : list Entry)
  (s : State DB) : Outcome :=
  match try_block wlasl_data s with
  | (inl (total_words, total_videos, skipped_words), s') =>
      Finished total_words skipped_words total_videos s'
  | (inr Error, s') =>
      match execute Rollback s' with
      | (inl _, s'') => RolledBack s''
      | (inr e, s'') => Uncaught e s''
      end
  | (inr TypeError, s') => Uncaught TypeError s'
  end.

End Ingestion.

(** The instances of an entry the method inserts: none when the key is
    absent, [null] or an empty list. *)
Definition inserted_instances (entry : Entry) : list Instance :=
  match get_default (instances entry) [] with
  | Some l => l
  | None => []
  end.

Definition is_skipped (entry : Entry) : bool :=
  match inserted_instances entry with
  | [] => true
  | _ => false
  end.

Definition is_rollback (st : Statement) : bool :=
  match st with Rollback => true | _ => false end.

(** An executed statement that is not a SELECT without a row: what
    [fetchone()[0]] can be applied to. *)
Definition found (x : Executed) : Prop :=
  forall g, statement x = SelectWordId g -> fetchone (reply x) <> None.

(** Reading the log of a run: [pending] video rows are still due for the
    word whose id is [word]; a word starts only when none is due, takes
    its id from [lastrowid] or, when that is 0, from the SELECT after it,
    and is followed by as many video rows as its [sample_count], each
    carrying that id and neither downloaded nor processed; commits fall
    between words; nothing is rolled back. *)
Fixpoint consistent (word : option Z) (pending : nat) (l : list Executed)
  : bool :=
  match l with
  | [] => Nat.eqb pending 0
  | {| statement := InsertWord _ n; reply := r |} :: rest =>
      Nat.eqb pending 0
      && consistent (if Z.eqb (lastrowid r) 0 then None
                     else Some (lastrowid r))
                    (Z.to_nat n) rest
  | {| statement := SelectWordId _; reply := r |} :: rest =>
      match word, fetchone r with
      | None, Some id => consistent (Some id) pending rest
      | _, _ => false
      end
  | {| statement := InsertVideo row; reply := _ |} :: rest =>
      match word, pending with
      | Some id, S k =>
          Z.eqb (row_word_id row) id
          && negb (row_downloaded row) && negb (row_processed row)
          && consistent word k rest
      | _, _ => false
      end
  | {| statement := Commit; reply := _ |} :: rest =>
      Nat.eqb pending 0 && consistent word pending rest
  | {| statement := Rollback; reply := _ |} :: rest => false
  end.

(** A video row of the word [wid], as the method writes them. *)
Definition fresh_row (wid : Z) (x : Executed) : Prop :=
  exists row,
    statement x = InsertVideo row
    /\ row_word_id row = wid
    /\ row_downloaded row = false
    /\ row_processed row = false.

(** The splits of the video rows of a log, in order. *)
Definition splits_of (l : list Executed) : list Split :=
  flat_map (fun x => match statement x with
                     | InsertVideo row => [row_split row]
                     | _ => []
                     end) l.

Definition count_statements (p : Statement -> bool) (l : list Executed)
  : nat :=
  List.length (filter (fun x => p (statement x)) l).

Definition is_commit (st : Statement) : bool :=
  match st with Commit => true | _ => false end.
Definition is_insert_word (st : Statement) : bool :=
  match st with InsertWord _ _ => true | _ => false end.
Definition is_insert_video (st : Statement) : bool :=
  match st with InsertVideo _ => true | _ => false end.

(** A server that accepts everything and numbers the rows it inserts, and
    one that raises on the statement it receives after [n] others, unless
    it is a rollback. *)
#[export] Instance counting_server : Environment nat := {
  run := fun d st => Some (S d, {| lastrowid := Z.of_nat (S d);
                                   fetchone := None |});
  random := fun n => 1 # 2
}.

Definition failing_server (n : nat) : Environment nat := {|
  run := fun d st =>
           if Nat.eqb d n && negb (is_rollback st) then None
           else Some (S d, {| lastrowid := Z.of_nat (S d);
                              fetchone := None |});
  random := fun _ => 9 # 10
|}.

(** A server that executes everything but reports no row id and finds
    no row. *)
Definition forgetful_server : Environment nat := {|
  run := fun d st => Some (S d, {| lastrowid := 0; fetchone := None |});
  random := fun _ => 3 # 4
|}.

Definition initial_state : State nat := {| db := 0%nat; log := []; draws := 0 |}.

Definition example_instance : Instance :=
  {| video_id := Value "69241"%string; url := Missing; fps := Value 25;
     frame_start := Value 1; frame_end := Value (-1);
     signer_id := Value 118 |}.

Definition example_data : list Entry :=
  [ {| gloss := Value "book"%string;
       instances := Value [example_instance; example_instance] |};
    {| gloss := Value "none"%string; instances := Value [] |};
    {| gloss := Value "drink"%string;
       instances := Value [example_instance] |} ].

Definition final_state {DB : Type} (o : @Outcome DB) : State DB :=
  match o with
  | Finished _ _ _ s => s
  | RolledBack s => s
  | Uncaught _ s => s
  end.

Definition example_finished : State nat :=
  final_state (insert_words_and_videos example_data initial_state).

Definition example_rolled_back : State nat :=
  final_state (@insert_words_and_videos nat (failing_server 2)
                 example_data initial_state).

Definition example_type_error : State nat :=
  final_state (@insert_words_and_videos nat forgetful_server
                 example_data initial_state).

End populate_database.

(* ===================================================================== *)
(** * Checks on concrete inputs                                           *)
(* ===================================================================== *)

Example parse_small :
  create_database._parse_sql_commands
    (create_database.join (String create_database.newline EmptyString)
       [ "-- schema"; "CREATE TABLE words ("; "  id INT"; ");"; "";
         "USE asl_recognition;"; "SELECT 1;  "; "SELECT 2" ]%string)
  = [ create_database.join (String create_database.newline EmptyString)
        [ "CREATE TABLE words ("; "  id INT"; ");" ]%string;
      "SELECT 1;  "%string ].
Proof. reflexivity. Qed.

Example default_model_shape :
  (m <- build_asl_model_default ;; Model_call m [2; 30; 63] false)
  = Ok [2; 100].
Proof. reflexivity. Qed.

(** The block's dataflow with the flag omitted, and in training mode. *)
Example block_dataflow_default :
  TransformerBlock.call example_block (EInput "x") None
  = let ln := {| epsilon := 1 # 1000000 |} in
    let x1 :=
      ELayerNormalization ln
        (EAdd (EInput "x")
              (EAttention {| mha_num_heads := 4; key_dim := 32 |}
                          (EInput "x") (EInput "x"))) in
    Ok (ELayerNormalization ln
          (EAdd x1
                (EDense {| units := 128; dense_activation := linear |}
                   (EDense {| units := 256; dense_activation := relu |}
                      x1)))).
Proof. reflexivity. Qed.

Example block_dataflow_training :
  TransformerBlock.call example_block (EInput "x") (Some true)
  = let ln := {| epsilon := 1 # 1000000 |} in
    let x1 :=
      ELayerNormalization ln
        (EAdd (EInput "x")
              (EDropout {| rate := 3 # 10 |}
                 (EAttention {| mha_num_heads := 4; key_dim := 32 |}
                             (EInput "x") (EInput "x")))) in
    Ok (ELayerNormalization ln
          (EAdd x1
                (EDropout {| rate := 3 # 10 |}
                   (EDense {| units := 128; dense_activation := linear |}
                      (EDense {| units := 256; dense_activation := relu |}
                         x1))))).
Proof. reflexivity. Qed.

Example pos_encoding_2_3 :
  PositionalEncoding.pos_encoding (T:=term) 2 3
  = [ [ Sin (PositionalEncoding.angle 3 (Const 0) (Const 0));
        Sin (PositionalEncoding.angle 3 (Const 0) (Const 2));
        Cos (PositionalEncoding.angle 3 (Const 0) (Const 1)) ];
      [ Sin (PositionalEncoding.angle 3 (Const 1) (Const 0));
        Sin (PositionalEncoding.angle 3 (Const 1) (Const 2));
        Cos (PositionalEncoding.angle 3 (Const 1) (Const 1)) ] ].
Proof. reflexivity. Qed.

(* ===================================================================== *)
(** * Lists: strided slices and row-wise concatenation                    *)
(* ===================================================================== *)

Lemma list_ind2 {A : Type} (P : list A -> Prop) :
  P [] -> (forall x, P [x]) -> (forall x y l, P l -> P (x :: y :: l)) ->
  forall l, P l.
Proof.
  intros H0 H1 H2 l.
  assert (H : P l /\ forall x, P (x :: l)).
  { induction l as [|a l [IHl IHl']].
    - split; [exact H0 | exact H1].
    - split; [apply IHl' | intro x; apply H2; exact IHl]. }
  exact (proj1 H).
Qed.

Lemma nth_error_slice_step2 {A : Type} (l : list A) (i : nat) :
  nth_error (slice_step2 l) i = nth_error l (2 * i).
Proof.
  revert i. induction l as [| x | x y l IH] using list_ind2; intro i.
  - destruct i; reflexivity.
  - destruct i as [|i]; [reflexivity|].
    replace (2 * S i)%nat with (S (S (2 * i))) by lia.
    destruct i; reflexivity.
  - destruct i as [|i]; [reflexivity|].
    replace (2 * S i)%nat with (S (S (2 * i))) by lia.
    simpl slice_step2. cbn [nth_error]. apply IH.
Qed.

Lemma length_slice_step2 {A : Type} (l : list A) :
  List.length (slice_step2 l) = Nat.div2 (S (List.length l)).
Proof.
  induction l as [| x | x y l IH] using list_ind2; try reflexivity.
  cbn [slice_step2 List.length]. rewrite IH. reflexivity.
Qed.

Lemma div2_succ_plus (n : nat) : (Nat.div2 (S n) + Nat.div2 n = n)%nat.
Proof.
  induction n as [n IH] using (well_founded_induction lt_wf).
  destruct n as [|[|n]]; try reflexivity.
  change (Nat.div2 (S (S (S n)))) with (S (Nat.div2 (S n))).
  change (Nat.div2 (S (S n))) with (S (Nat.div2 n)).
  specialize (IH n (ltac:(lia))). lia.
Qed.

Lemma div2_succ_double_lt (i n : nat) :
  (i < Nat.div2 (S n) <-> 2 * i < n)%nat.
Proof.
  revert i. induction n as [n IH] using (well_founded_induction lt_wf).
  intro i. destruct n as [|[|n]].
  - cbn. lia.
  - cbn. lia.
  - change (Nat.div2 (S (S (S n)))) with (S (Nat.div2 (S n))).
    destruct i as [|i].
    + split; intros _; [apply Nat.lt_0_succ | apply Nat.lt_0_succ].
    + specialize (IH n (ltac:(lia)) i).
      revert IH. generalize (Nat.div2 (S n)). intros k IH. lia.
Qed.

Lemma map2_map_same {A B C D : Type} (h : B -> C -> D) (f : A -> B)
  (g : A -> C) (l : list A) :
  map2 h (map f l) (map g l) = map (fun x => h (f x) (g x)) l.
Proof.
  induction l as [|a l IH]; [reflexivity|].
  cbn. rewrite IH. reflexivity.
Qed.

Lemma slice_step2_map {A B : Type} (f : A -> B) (l : list A) :
  slice_step2 (map f l) = map f (slice_step2 l).
Proof.
  induction l as [| x | x y l IH] using list_ind2; try reflexivity.
  cbn. rewrite IH. reflexivity.
Qed.

(* ===================================================================== *)
(** * PositionalEncoding: what [call] computes                            *)
(* ===================================================================== *)

Section PositionalEncodingFacts.
Context {T : Type} `{Float T}.

Lemma length_tf_range (n : nat) : List.length (tf_range (T:=T) n) = n.
Proof. unfold tf_range. rewrite length_map, length_seq. reflexivity. Qed.

Lemma nth_error_tf_range (n k : nat) :
  (k < n)%nat -> nth_error (tf_range (T:=T) n) k = Some (of_Z (Z.of_nat k)).
Proof.
  intro Hk. unfold tf_range.
  rewrite nth_error_map, nth_error_seq.
  destruct (Nat.ltb_spec k n); [reflexivity | lia].
Qed.

Lemma length_pos_row (d_model : nat) (p : T) :
  List.length (pos_row d_model p) = d_model.
Proof.
  unfold pos_row. cbv zeta.
  rewrite length_app, !length_map, !length_slice_step2.
  rewrite length_tl, length_map, length_tf_range.
  destruct d_model as [|d]; [reflexivity|].
  cbn [Nat.pred Nat.sub]. rewrite Nat.sub_0_r.
  apply div2_succ_plus.
Qed.

(** The truncation [pos_encoding[:, :d_model]] never removes a column:
    the two halves together already have [d_model] columns. *)
Lemma pos_encoding_rows (seq_length d_model : nat) :
  PositionalEncoding.pos_encoding seq_length d_model
  = map (pos_row d_model) (tf_range seq_length).
Proof.
  unfold PositionalEncoding.pos_encoding, PositionalEncoding.angles,
    concat_last, even_columns, odd_columns.
  cbv zeta. rewrite !map_map, map2_map_same, map_map.
  apply map_ext. intro p.
  rewrite firstn_all2; [reflexivity|].
  change (List.length (pos_row d_model p) <= d_model)%nat.
  rewrite length_pos_row. apply Nat.le_refl.
Qed.

End PositionalEncodingFacts.

Section PositionalEncodingEntries.
Context {T : Type} `{Float T}.

Lemma nth_error_tl {A : Type} (l : list A) (j : nat) :
  nth_error (tl l) j = nth_error l (S j).
Proof. destruct l; [destruct j|]; reflexivity. Qed.

Lemma nth_error_angles_row (d_model : nat) (p : T) (j : nat) :
  (j < d_model)%nat ->
  nth_error (map (PositionalEncoding.angle d_model p) (tf_range d_model)) j
  = Some (PositionalEncoding.angle d_model p (of_Z (Z.of_nat j))).
Proof.
  intro Hj. rewrite nth_error_map, nth_error_tf_range by exact Hj.
  reflexivity.
Qed.

(** The first half of a row holds the sines of the even columns of
    [angles]: column [i] holds [sin(angles[p][2 i])]. *)
Lemma pos_row_sines (d_model : nat) (p : T) (i : nat) :
  (2 * i < d_model)%nat ->
  nth_error (pos_row d_model p) i
  = Some (fsin (PositionalEncoding.angle d_model p
                  (of_Z (Z.of_nat (2 * i))))).
Proof.
  intro Hi. unfold pos_row. cbv zeta.
  rewrite nth_error_app1.
  - rewrite nth_error_map, nth_error_slice_step2.
    rewrite nth_error_angles_row by exact Hi. reflexivity.
  - rewrite length_map, length_slice_step2, length_map, length_tf_range.
    apply div2_succ_double_lt. exact Hi.
Qed.

(** The second half holds the cosines of the odd columns: column
    [ceil(d_model / 2) + k] holds [cos(angles[p][2 k + 1])]. *)
Lemma pos_row_cosines (d_model : nat) (p : T) (k : nat) :
  (2 * k + 1 < d_model)%nat ->
  nth_error (pos_row d_model p) (Nat.div2 (S d_model) + k)
  = Some (fcos (PositionalEncoding.angle d_model p
                  (of_Z (Z.of_nat (2 * k + 1))))).
Proof.
  intro Hk. unfold pos_row. cbv zeta.
  rewrite nth_error_app2.
  - rewrite length_map, length_slice_step2, length_map, length_tf_range.
    replace (Nat.div2 (S d_model) + k - Nat.div2 (S d_model))%nat with k
      by lia.
    rewrite nth_error_map, nth_error_slice_step2, nth_error_tl.
    replace (S (2 * k)) with (2 * k + 1)%nat by lia.
    rewrite nth_error_angles_row by exact Hk. reflexivity.
  - rewrite length_map, length_slice_step2, length_map, length_tf_range.
    lia.
Qed.

Lemma nth_error_pos_encoding (seq_length d_model p : nat) :
  (p < seq_length)%nat ->
  nth_error (PositionalEncoding.pos_encoding seq_length d_model) p
  = Some (pos_row d_model (of_Z (Z.of_nat p))).
Proof.
  intro Hp. rewrite pos_encoding_rows, nth_error_map.
  rewrite nth_error_tf_range by exact Hp. reflexivity.
Qed.

Lemma length_pos_encoding (seq_length d_model : nat) :
  List.length (PositionalEncoding.pos_encoding seq_length d_model)
  = seq_length.
Proof. rewrite pos_encoding_rows, length_map. apply length_tf_range. Qed.

End PositionalEncodingEntries.

(** At position 0 every angle is 0 over the reals. *)
Lemma angle_position_0 (d_model : nat) (d : R) :
  PositionalEncoding.angle (T:=R) d_model (IZR 0) d = 0%R.
Proof.
  unfold PositionalEncoding.angle. cbn [fdiv R_Float].
  unfold Rdiv. apply Rmult_0_l.
Qed.

(** Over the reals, column 1 of row 0 is sin 0 = 0 for every width of at
    least 3, where interleaving would put cos 0 = 1. *)
Lemma pos_encoding_row_0_column_1 (seq_length d_model : nat) :
  (1 <= seq_length)%nat -> (3 <= d_model)%nat ->
  exists row,
    nth_error (PositionalEncoding.pos_encoding (T:=R) seq_length d_model) 0
    = Some row
    /\ nth_error row 1 = Some 0%R.
Proof.
  intros HL HD. eexists. split.
  - apply nth_error_pos_encoding. lia.
  - rewrite (pos_row_sines d_model _ 1) by lia.
    cbn [fsin of_Z R_Float Z.of_nat]. rewrite angle_position_0.
    rewrite sin_0. reflexivity.
Qed.

(** C1, evaluated on an input of shape (1, 1, 4): the row the code adds
    is [sin a0, sin a2, cos a1, cos a3], the sines of the even columns of
    [angles] followed by the cosines of the odd ones, where the claim
    interleaves them as [sin a0, cos a1, sin a2, cos a3].  Over the reals
    column 1 of row 0 is sin 0 = 0, and the claim's value for it,
    cos(angle(0, 1)), is 1. *)
Theorem pos_encoding_concatenates_halves :
  PositionalEncoding.pos_encoding (T:=term) 1 4
  = [ [ Sin (PositionalEncoding.angle 4 (Const 0) (Const 0));
        Sin (PositionalEncoding.angle 4 (Const 0) (Const 2));
        Cos (PositionalEncoding.angle 4 (Const 0) (Const 1));
        Cos (PositionalEncoding.angle 4 (Const 0) (Const 3)) ] ]
  /\ (exists row,
        nth_error (PositionalEncoding.pos_encoding (T:=R) 1 4) 0 = Some row
        /\ nth_error row 1 = Some 0%R)
  /\ fcos (PositionalEncoding.angle (T:=R) 4 (of_Z 0) (of_Z 1)) = 1%R.
Proof.
  split; [reflexivity|]. split.
  - eexists. split.
    + apply nth_error_pos_encoding. lia.
    + rewrite (pos_row_sines 4 _ 1) by lia.
      cbn [fsin of_Z R_Float Z.of_nat]. rewrite angle_position_0.
      rewrite sin_0. reflexivity.
  - cbn [fcos of_Z R_Float]. rewrite angle_position_0. apply cos_0.
Qed.

(** C7: the matrix [PositionalEncoding.call] adds is a function of the
    sequence length and width of its input alone: two calls, on any two
    layer objects and any two inputs of the same length and width, add the
    same matrix; a call leaves the layer object as it found it, so a call
    made after it adds that matrix again. *)
Theorem positional_encoding_deterministic {T : Type} `{Float T}
  (self1 self2 : PositionalEncoding.t) (x y : Tensor3 T) :
  dim1 x = dim1 y -> dim2 x = dim2 y ->
  PositionalEncoding.added_matrix self1 x
  = PositionalEncoding.added_matrix self2 y
  /\ snd (PositionalEncoding.call self1 x)
     = PositionalEncoding.add_broadcast x
         (PositionalEncoding.pos_encoding (dim1 x) (dim2 x))
  /\ fst (PositionalEncoding.call self1 x) = self1
  /\ PositionalEncoding.added_matrix (fst (PositionalEncoding.call self1 x)) y
     = PositionalEncoding.added_matrix self1 x.
Proof.
  intros H1 H2. unfold PositionalEncoding.call, PositionalEncoding.added_matrix.
  cbn [fst snd]. rewrite H1, H2. repeat split; reflexivity.
Qed.

Lemma positional_encoding_deterministic_witness :
  dim1 example_x = dim1 example_y
  /\ dim2 example_x = dim2 example_y
  /\ PositionalEncoding.added_matrix example_layer_1 example_x
     = PositionalEncoding.added_matrix example_layer_2 example_y
  /\ snd (PositionalEncoding.call example_layer_1 example_x)
     = PositionalEncoding.add_broadcast example_x
         (PositionalEncoding.pos_encoding (dim1 example_x) (dim2 example_x))
  /\ fst (PositionalEncoding.call example_layer_1 example_x)
     = example_layer_1
  /\ PositionalEncoding.added_matrix
       (fst (PositionalEncoding.call example_layer_1 example_x)) example_y
     = PositionalEncoding.added_matrix example_layer_1 example_x.
Proof.
  split; [reflexivity|]. split; [reflexivity|].
  apply (positional_encoding_deterministic
           example_layer_1 example_layer_2 example_x example_y);
    reflexivity.
Defined.

(* ===================================================================== *)
(** * TransformerBlock                                                    *)
(* ===================================================================== *)

Lemma broadcast_rev_same (l : list Z) : broadcast_rev l l = Ok l.
Proof.
  induction l as [|x l IH]; [reflexivity|].
  cbn [broadcast_rev]. rewrite IH. cbn [bind].
  rewrite Z.eqb_refl. reflexivity.
Qed.

Lemma broadcast_same (s : list Z) : broadcast s s = Ok s.
Proof.
  unfold broadcast. rewrite broadcast_rev_same. cbn [bind].
  rewrite rev_involutive. reflexivity.
Qed.

(** The constructors of the framework succeed exactly on the arguments
    their check lets through. *)
Lemma MultiHeadAttention_init_ok (h k : Z) :
  1 <= h -> 1 <= k ->
  MultiHeadAttention_init h k = Ok {| mha_num_heads := h; key_dim := k |}.
Proof.
  intros Hh Hk. unfold MultiHeadAttention_init.
  destruct (Z.leb_spec 1 h); [|lia]. destruct (Z.leb_spec 1 k); [|lia].
  reflexivity.
Qed.

Lemma MultiHeadAttention_init_inv (h k : Z) (a : MultiHeadAttention) :
  MultiHeadAttention_init h k = Ok a ->
  1 <= h /\ 1 <= k /\ a = {| mha_num_heads := h; key_dim := k |}.
Proof.
  unfold MultiHeadAttention_init.
  destruct (Z.leb_spec 1 h); [|discriminate].
  destruct (Z.leb_spec 1 k); [|discriminate].
  cbn [andb]. intro E. injection E as <-. repeat split; assumption.
Qed.

Lemma Dense_init_ok (u : Z) (a : activation) :
  1 <= u -> Dense_init u a = Ok {| units := u; dense_activation := a |}.
Proof.
  intro Hu. unfold Dense_init. destruct (Z.leb_spec 1 u); [|lia].
  reflexivity.
Qed.

Lemma Dense_init_inv (u : Z) (a : activation) (d : Dense) :
  Dense_init u a = Ok d ->
  1 <= u /\ d = {| units := u; dense_activation := a |}.
Proof.
  unfold Dense_init. destruct (Z.leb_spec 1 u); [|discriminate].
  intro E. injection E as <-. split; [assumption | reflexivity].
Qed.

Lemma Dropout_init_ok (q : Q) :
  (0 <= q)%Q -> (q <= 1)%Q -> Dropout_init q = Ok {| rate := q |}.
Proof.
  intros H0 H1. unfold Dropout_init.
  rewrite (proj2 (Qle_bool_iff 0 q) H0), (proj2 (Qle_bool_iff q 1) H1).
  reflexivity.
Qed.

Lemma Dropout_init_inv (q : Q) (d : Dropout) :
  Dropout_init q = Ok d ->
  (0 <= q)%Q /\ (q <= 1)%Q /\ d = {| rate := q |}.
Proof.
  unfold Dropout_init.
  destruct (Qle_bool 0 q) eqn:E0; [|discriminate].
  destruct (Qle_bool q 1) eqn:E1; [|discriminate].
  cbn [andb]. intro E. injection E as <-.
  repeat split; [apply Qle_bool_iff, E0 | apply Qle_bool_iff, E1].
Qed.

Lemma Conv1D_init_ok (f k : Z) (a : activation) (p : padding) :
  1 <= f -> 1 <= k ->
  Conv1D_init f k a p
  = Ok {| filters := f; kernel_size := k; conv_activation := a;
          conv_padding := p |}.
Proof.
  intros Hf Hk. unfold Conv1D_init.
  destruct (Z.leb_spec 1 f); [|lia]. destruct (Z.leb_spec 1 k); [|lia].
  reflexivity.
Qed.

Lemma Conv1D_init_inv (f k : Z) (a : activation) (p : padding)
  (c : Conv1D) :
  Conv1D_init f k a p = Ok c ->
  1 <= f
  /\ c = {| filters := f; kernel_size := k; conv_activation := a;
            conv_padding := p |}.
Proof.
  unfold Conv1D_init.
  destruct (Z.leb_spec 1 f); [|discriminate].
  destruct (Z.leb_spec 1 k); [|discriminate].
  cbn [andb]. intro E. injection E as <-. split; [assumption | reflexivity].
Qed.

Lemma quotient_positive (e h : Z) : 1 <= h -> (1 <= e / h <-> h <= e).
Proof.
  intro Hh. split; intro H.
  - destruct (Z_lt_le_dec e h) as [Hlt|Hle]; [|exact Hle].
    assert (e / h < 1) by (apply Z.div_lt_upper_bound; lia). lia.
  - apply Z.div_le_lower_bound; lia.
Qed.

(** The block the constructor returns. *)
Lemma init_ok (e h f : Z) (r : option Q) :
  sane_block e h f (dropout_of r) ->
  TransformerBlock.__init__ e h f r
  = Ok (TransformerBlock.mk e h f (dropout_of r)
          {| mha_num_heads := h; key_dim := e / h |}
          [ {| units := f; dense_activation := relu |};
            {| units := e; dense_activation := linear |} ]
          {| epsilon := 1 # 1000000 |} {| epsilon := 1 # 1000000 |}
          {| rate := dropout_of r |} {| rate := dropout_of r |}).
Proof.
  intros ([Hh He] & Hf & Hr0 & Hr1).
  unfold TransformerBlock.__init__, floordiv.
  fold (dropout_of r).
  destruct (Z.eqb_spec h 0) as [E|_]; [lia|]. cbn [bind].
  rewrite MultiHeadAttention_init_ok
    by (lia || (apply (proj2 (quotient_positive e h Hh)); exact He)).
  cbn [bind]. rewrite !Dense_init_ok by lia. cbn [bind].
  rewrite !Dropout_init_ok by assumption. reflexivity.
Qed.

Lemma init_inv (e h f : Z) (r : option Q) (blk : TransformerBlock.t) :
  TransformerBlock.__init__ e h f r = Ok blk ->
  sane_block e h f (dropout_of r)
  /\ blk = TransformerBlock.mk e h f (dropout_of r)
             {| mha_num_heads := h; key_dim := e / h |}
             [ {| units := f; dense_activation := relu |};
               {| units := e; dense_activation := linear |} ]
             {| epsilon := 1 # 1000000 |} {| epsilon := 1 # 1000000 |}
             {| rate := dropout_of r |} {| rate := dropout_of r |}.
Proof.
  intro Hinit.
  assert (Hs : sane_block e h f (dropout_of r)).
  { revert Hinit. unfold TransformerBlock.__init__, floordiv.
    fold (dropout_of r).
    destruct (Z.eqb_spec h 0) as [E|_]; [discriminate|]. cbn [bind].
    destruct (MultiHeadAttention_init h (e / h)) as [a|] eqn:Ea;
      [|discriminate].
    destruct (MultiHeadAttention_init_inv _ _ _ Ea) as (Hh & Hk & _).
    cbn [bind].
    destruct (Dense_init f relu) as [d1|] eqn:E1; [|discriminate].
    destruct (Dense_init_inv _ _ _ E1) as (Hf & _).
    cbn [bind].
    destruct (Dense_init e linear) as [d2|] eqn:E2; [|discriminate].
    cbn [bind].
    destruct (Dropout_init (dropout_of r)) as [dr|] eqn:Er; [|discriminate].
    destruct (Dropout_init_inv _ _ Er) as (Hr0 & Hr1 & _).
    intros _. unfold sane_block.
    pose proof (proj1 (quotient_positive e h Hh) Hk). repeat split; lia || assumption. }
  split; [exact Hs|].
  rewrite (init_ok e h f r Hs) in Hinit. injection Hinit as <-. reflexivity.
Qed.

(** The shape a block returns, read off its feed-forward stack: the last
    dense layer restores the width the residual addition needs. *)
Lemma call_shape_of_ffn (blk : TransformerBlock.t) (f b L D : Z)
  (training : option bool) :
  TransformerBlock.ffn blk
  = [ {| units := f; dense_activation := relu |};
      {| units := D; dense_activation := linear |} ] ->
  TransformerBlock.call blk [b; L; D] training = Ok [b; L; D].
Proof.
  intro Hffn. unfold TransformerBlock.call. rewrite Hffn.
  cbn [MultiHeadAttention_call Dropout_call LayerNormalization_call
       tensor_add shape_Backend bind].
  rewrite broadcast_same. cbn [bind Sequential_call Dense_call shape_Backend
    Dense_shape removelast app units].
  rewrite broadcast_same. reflexivity.
Qed.

(** The same on the shape of one sequence, the batch left out. *)
Lemma call_shape_of_ffn_sequence (blk : TransformerBlock.t) (f L D : Z)
  (training : option bool) :
  TransformerBlock.ffn blk
  = [ {| units := f; dense_activation := relu |};
      {| units := D; dense_activation := linear |} ] ->
  TransformerBlock.call blk [L; D] training = Ok [L; D].
Proof.
  intro Hffn. unfold TransformerBlock.call. rewrite Hffn.
  cbn [MultiHeadAttention_call Dropout_call LayerNormalization_call
       tensor_add shape_Backend bind].
  rewrite broadcast_same. cbn [bind Sequential_call Dense_call shape_Backend
    Dense_shape removelast app units].
  rewrite broadcast_same. reflexivity.
Qed.

(** C5: a block built by the constructor maps an input of shape
    (batch, L, D), D being its [embed_dim], to an output of that same
    shape, whether the flag is [True], [False] or omitted. *)
Theorem transformer_block_preserves_shape
  (e h f : Z) (r : option Q) (blk : TransformerBlock.t)
  (b L D : Z) (training : option bool) :
  TransformerBlock.__init__ e h f r = Ok blk ->
  D = TransformerBlock.embed_dim blk ->
  TransformerBlock.call blk [b; L; D] training = Ok [b; L; D].
Proof.
  intros Hinit HD.
  destruct (init_inv _ _ _ _ _ Hinit) as (_ & ->).
  subst D. apply (call_shape_of_ffn _ f). reflexivity.
Qed.

Lemma transformer_block_preserves_shape_witness :
  TransformerBlock.__init__ 128 4 256 (Some (3 # 10)) = Ok example_block
  /\ TransformerBlock.call example_block [2; 15; 128] (Some true)
     = Ok [2; 15; 128].
Proof.
  split; [reflexivity|].
  apply (transformer_block_preserves_shape 128 4 256 (Some (3 # 10)));
    reflexivity.
Defined.

Lemma bind_dropout_inference {X : Type} `{Backend X}
  (law : forall d x, Dropout_call d x false = Ok x)
  (d : Dropout) (x : X) (k : X -> result X) :
  bind (Dropout_call d x false) k = k x.
Proof. rewrite law. reflexivity. Qed.

(** C10: [training] defaults to [False]: a call that omits the flag is the
    call with [training=False]; and on a backend whose dropout is the
    identity outside training, as the framework's is, it is the block's
    pipeline with both dropout applications taken out. *)
Theorem transformer_block_default_is_inference {X : Type} `{Backend X}
  (self : TransformerBlock.t) (inputs : X) :
  (forall d x, Dropout_call d x false = Ok x) ->
  TransformerBlock.call self inputs None
  = TransformerBlock.call self inputs (Some false)
  /\ TransformerBlock.call self inputs None
     = TransformerBlock.call_without_dropout self inputs.
Proof.
  intro law. split; [reflexivity|].
  unfold TransformerBlock.call, TransformerBlock.call_without_dropout.
  destruct (MultiHeadAttention_call _ inputs inputs) as [a|err];
    [|reflexivity].
  cbn [bind]. rewrite (bind_dropout_inference law).
  destruct (tensor_add inputs a) as [s|err]; [|reflexivity].
  cbn [bind].
  destruct (LayerNormalization_call _ s) as [x|err]; [|reflexivity].
  cbn [bind].
  destruct (Sequential_call _ x) as [o|err]; [|reflexivity].
  cbn [bind]. rewrite (bind_dropout_inference law). reflexivity.
Qed.

Lemma transformer_block_default_is_inference_witness :
  (forall (d : Dropout) (x : expr), Dropout_call d x false = Ok x)
  /\ TransformerBlock.call example_block (EInput "x") None
     = TransformerBlock.call example_block (EInput "x") (Some false)
  /\ TransformerBlock.call example_block (EInput "x") None
     = TransformerBlock.call_without_dropout example_block (EInput "x").
Proof.
  split; [intros d x; reflexivity|].
  apply (transformer_block_default_is_inference example_block (EInput "x")).
  intros d x. reflexivity.
Defined.

(** C2, as stated, fails: 5 does not divide 128, yet the block is built,
    and so is the model. *)
Lemma indivisible_heads_are_accepted :
  128 mod 5 <> 0
  /\ is_ok (TransformerBlock.__init__ 128 5 256 (Some (3 # 10))) = true
  /\ is_ok (build_asl_model 30 63 100 [64; 128] 5 128 256 (3 # 10)) = true.
Proof. repeat split. discriminate. Qed.

(** C2, amended: the constructor does not test divisibility.  For
    arguments the layers accept, a head count between 1 and the
    embedding width among them, it returns a block whose attention layer
    has per-head width [embed_dim // num_heads], the floor of the
    quotient, whether the head count divides the width or not; with 128
    and 5 that width is 25. *)
Theorem transformer_block_init_floors_key_dim
  (e h f : Z) (r : option Q) :
  sane_block e h f (dropout_of r) ->
  exists blk,
    TransformerBlock.__init__ e h f r = Ok blk
    /\ TransformerBlock.embed_dim blk = e
    /\ TransformerBlock.num_heads blk = h
    /\ TransformerBlock.attention blk
       = {| mha_num_heads := h; key_dim := e / h |}.
Proof.
  intro Hs. eexists. split; [apply (init_ok e h f r Hs)|].
  repeat split.
Qed.

Lemma sane_indivisible_block :
  sane_block 128 5 256 (dropout_of None) /\ 128 mod 5 <> 0.
Proof. unfold sane_block, dropout_of, Qle. cbn. repeat split; lia. Qed.

Lemma transformer_block_init_floors_key_dim_witness :
  sane_block 128 5 256 (dropout_of None)
  /\ 128 mod 5 <> 0
  /\ exists blk,
       TransformerBlock.__init__ 128 5 256 None = Ok blk
       /\ TransformerBlock.embed_dim blk = 128
       /\ TransformerBlock.num_heads blk = 5
       /\ TransformerBlock.attention blk
          = {| mha_num_heads := 5; key_dim := 25 |}.
Proof.
  split; [exact (proj1 sane_indivisible_block)|].
  split; [exact (proj2 sane_indivisible_block)|].
  exact (transformer_block_init_floors_key_dim 128 5 256 None
           (proj1 sane_indivisible_block)).
Defined.

(* ===================================================================== *)
(** * Shapes of the layers                                                *)
(* ===================================================================== *)

Lemma conv_output_length_same (n k : Z) :
  conv_output_length n k same 1 = Ok n.
Proof.
  unfold conv_output_length, floordiv. cbn [Z.eqb].
  f_equal. rewrite Z.div_1_r. lia.
Qed.

Lemma conv_output_length_pool2 (n : Z) :
  conv_output_length n 2 valid 2 = Ok (n / 2).
Proof.
  unfold conv_output_length, floordiv. cbn [Z.eqb].
  f_equal. f_equal. lia.
Qed.

Lemma half_positive (n : Z) : 1 <= n / 2 <-> 2 <= n.
Proof. apply (quotient_positive n 2). lia. Qed.

Lemma output_length_same (n k : Z) :
  output_length n k same 1
  = if 1 <=? n then Ok n
    else Raise (ValueError "the computed output would be empty").
Proof.
  unfold output_length. rewrite conv_output_length_same. reflexivity.
Qed.

Lemma output_length_pool2 (n : Z) :
  output_length n 2 valid 2
  = if 2 <=? n then Ok (n / 2)
    else Raise (ValueError "the computed output would be empty").
Proof.
  unfold output_length. rewrite conv_output_length_pool2. cbn [bind].
  destruct (Z.leb_spec 2 n) as [H|H].
  - destruct (Z.leb_spec 1 (n / 2)) as [_|H']; [reflexivity|].
    apply half_positive in H. lia.
  - destruct (Z.leb_spec 1 (n / 2)) as [H'|_]; [|reflexivity].
    apply half_positive in H'. lia.
Qed.

Lemma half_columns (d : Z) : Z.min d ((d + 1) / 2 + d / 2) = d.
Proof.
  assert (E : (d + 1) / 2 + d / 2 = d).
  { pose proof (Z.div_mod d 2 ltac:(lia)) as H0.
    pose proof (Z.div_mod (d + 1) 2 ltac:(lia)) as H1.
    pose proof (Z.mod_pos_bound d 2 ltac:(lia)) as B0.
    pose proof (Z.mod_pos_bound (d + 1) 2 ltac:(lia)) as B1.
    assert (Hcases : d mod 2 = 0 \/ d mod 2 = 1) by lia.
    destruct Hcases as [E0|E0].
    - assert ((d + 1) mod 2 = 1) by
        (rewrite Z.add_mod, E0 by lia; reflexivity). lia.
    - assert ((d + 1) mod 2 = 0) by
        (rewrite Z.add_mod, E0 by lia; reflexivity). lia. }
  rewrite E. apply Z.min_id.
Qed.

Lemma PositionalEncoding_shape_sequence (L d : Z) :
  PositionalEncoding_shape [L; d] = Ok [L; d].
Proof.
  unfold PositionalEncoding_shape. cbn [nth_error].
  cbv zeta. rewrite half_columns. apply broadcast_same.
Qed.

(** A same-padded convolution on sequences of [n] vectors of width
    [ch]: the kernel's channels must be the input's, and the sequence
    must not be empty. *)
Lemma conv_same_shape (f k : Z) (a : activation) (ic n ch : Z)
  (training : bool) :
  Layer_shape
    (LConv1D {| filters := f; kernel_size := k; conv_activation := a;
                conv_padding := same |} ic) [n; ch] training
  = if (ch =? ic) && (1 <=? ch) && (1 <=? n) then Ok [n; f]
    else if (ch =? ic) && (1 <=? ch)
         then Raise (ValueError "the computed output would be empty")
         else Raise (ValueError "Conv1D: the channels are not the kernel's").
Proof.
  cbn [Layer_shape kernel_size conv_padding filters].
  rewrite output_length_same.
  destruct ((ch =? ic) && (1 <=? ch)); [|reflexivity].
  cbn [andb]. destruct (1 <=? n); reflexivity.
Qed.

Lemma pool2_shape (n c : Z) (training : bool) :
  Layer_shape (LMaxPooling1D {| pool_size := 2 |}) [n; c] training
  = if 2 <=? n then Ok [n / 2; c]
    else Raise (ValueError "the computed output would be empty").
Proof.
  cbn [Layer_shape pool_size]. rewrite output_length_pool2.
  destruct (2 <=? n); reflexivity.
Qed.

Lemma dense_shape (u : Z) (a : activation) (pre : list Z) (w : Z)
  (training : bool) :
  Layer_shape (LDense {| units := u; dense_activation := a |} w)
    (pre ++ [w]) training
  = Ok (pre ++ [u]).
Proof.
  cbn [Layer_shape]. rewrite last_last, Z.eqb_refl.
  cbn [Dense_call shape_Backend]. unfold Dense_shape.
  rewrite removelast_last. cbn [units].
  destruct (pre ++ [w]) eqn:E; [|reflexivity].
  destruct pre; discriminate.
Qed.

Lemma dense_shape_vector (u : Z) (a : activation) (w : Z)
  (training : bool) :
  Layer_shape (LDense {| units := u; dense_activation := a |} w) [w]
    training
  = Ok [u].
Proof. apply (dense_shape u a [] w). Qed.

Lemma dense_shape_sequence (u : Z) (a : activation) (L w : Z)
  (training : bool) :
  Layer_shape (LDense {| units := u; dense_activation := a |} w) [L; w]
    training
  = Ok [L; u].
Proof. apply (dense_shape u a [L] w). Qed.

Lemma bn_shape (s : list Z) (training : bool) :
  Layer_shape LBatchNormalization s training = Ok s.
Proof. reflexivity. Qed.

Lemma dropout_shape (d : Dropout) (s : list Z) (training : bool) :
  Layer_shape (LDropout d) s training = Ok s.
Proof. reflexivity. Qed.

Lemma gap_shape (L c : Z) (training : bool) :
  Layer_shape LGlobalAveragePooling1D [L; c] training = Ok [c].
Proof. reflexivity. Qed.

Lemma positional_encoding_shape (L d : Z) (training : bool) :
  Layer_shape LPositionalEncoding [L; d] training = Ok [L; d].
Proof. apply PositionalEncoding_shape_sequence. Qed.

Lemma MaxPooling1D_init_2 : MaxPooling1D_init 2 = Ok {| pool_size := 2 |}.
Proof. reflexivity. Qed.

Lemma block_shape (blk : TransformerBlock.t) (e h f : Z) (r : option Q)
  (L : Z) (training : bool) :
  TransformerBlock.__init__ e h f r = Ok blk ->
  Layer_shape (LTransformerBlock blk) [L; e] training = Ok [L; e].
Proof.
  intro Hinit. destruct (init_inv _ _ _ _ _ Hinit) as (_ & ->).
  cbn [Layer_shape]. apply (call_shape_of_ffn_sequence _ f). reflexivity.
Qed.

(* ===================================================================== *)
(** * build_asl_model                                                     *)
(* ===================================================================== *)

Lemma getitem_inv {A : Type} (l : list A) (i : nat) (a : A) :
  getitem l i = Ok a -> nth_error l i = Some a.
Proof.
  unfold getitem. destruct (nth_error l i); [|discriminate].
  intro E. injection E as ->. reflexivity.
Qed.

Lemma is_true_leb (a b : Z) : a <= b -> (a <=? b) = true.
Proof. intro H. apply Z.leb_le. exact H. Qed.

(** The model [build_asl_model] returns, on arguments the layers
    accept. *)
Lemma build_ok_explicit (nf nl nc f0 f1 : Z) (rest : list Z)
  (h d ff : Z) (r : Q) (blk : TransformerBlock.t) :
  2 <= nf -> 1 <= nl -> 1 <= nc -> 1 <= f0 -> 1 <= f1 ->
  TransformerBlock.__init__ d h ff (Some r) = Ok blk ->
  build_asl_model nf nl nc (f0 :: f1 :: rest) h d ff r
  = Ok {| model_name := "ASL_CNN_Transformer";
          model_inputs :=
            ("landmark_input"%string, {| shape := [nf; nl] |});
          model_layers :=
            [ ("conv1d_1",
               LConv1D {| filters := f0; kernel_size := 3;
                          conv_activation := relu; conv_padding := same |}
                       nl);
              ("bn_1", LBatchNormalization);
              ("conv1d_2",
               LConv1D {| filters := f1; kernel_size := 3;
                          conv_activation := relu; conv_padding := same |}
                       f0);
              ("bn_2", LBatchNormalization);
              ("maxpool", LMaxPooling1D {| pool_size := 2 |});
              ("projection",
               LDense {| units := d; dense_activation := linear |} f1);
              ("positional_encoding", LPositionalEncoding);
              ("pos_dropout", LDropout {| rate := r |});
              ("transformer_block", LTransformerBlock blk);
              ("global_avg_pool", LGlobalAveragePooling1D);
              ("dense_1",
               LDense {| units := 256; dense_activation := relu |} d);
              ("dropout_1", LDropout {| rate := r |});
              ("dense_2",
               LDense {| units := 128; dense_activation := relu |} 256);
              ("dropout_2", LDropout {| rate := r |});
              ("output",
               LDense {| units := nc; dense_activation := softmax |} 128)
            ]%string;
          model_compiled := None |}.
Proof.
  intros Hnf Hnl Hnc Hf0 Hf1 Hblk.
  destruct (init_inv _ _ _ _ _ Hblk) as (([Hh Hd] & _ & Hr0 & Hr1) & _).
  cbn [dropout_of] in Hr0, Hr1.
  unfold build_asl_model. cbv zeta.
  cbn [getitem nth_error bind channels last].
  rewrite !Conv1D_init_ok by lia. cbn [bind].
  rewrite conv_same_shape, Z.eqb_refl, !is_true_leb by lia.
  cbn [andb bind channels last]. rewrite bn_shape.
  cbn [bind channels last].
  rewrite conv_same_shape, Z.eqb_refl, !is_true_leb by lia.
  cbn [andb bind channels last]. rewrite bn_shape.
  rewrite MaxPooling1D_init_2. cbn [bind channels last].
  rewrite pool2_shape, is_true_leb by lia. cbn [bind channels last].
  rewrite Dense_init_ok by lia. cbn [bind channels last].
  rewrite dense_shape_sequence. cbn [bind channels last].
  rewrite positional_encoding_shape. cbn [bind channels last].
  rewrite !Dropout_init_ok by assumption. cbn [bind channels last].
  rewrite dropout_shape, Hblk. cbn [bind channels last].
  rewrite (block_shape blk d h ff (Some r) (nf / 2) false Hblk).
  cbn [bind channels last]. rewrite gap_shape. cbn [bind channels last].
  rewrite !Dense_init_ok by lia. cbn [bind channels last].
  rewrite dense_shape_vector. cbn [bind channels last].
  rewrite dropout_shape. cbn [bind channels last].
  rewrite dense_shape_vector. cbn [bind channels last].
  rewrite dropout_shape. cbn [bind channels last].
  rewrite dense_shape_vector. reflexivity.
Qed.

Lemma bind_inv {A B : Type} (c : result A) (k : A -> result B) (b : B) :
  bind c k = Ok b -> exists a, c = Ok a /\ k a = Ok b.
Proof.
  destruct c as [a|e]; [|discriminate].
  intro H. exists a. split; [reflexivity | exact H].
Qed.

(** What a model returned by [build_asl_model] tells about the
    arguments: they are arguments the layers accept. *)
Lemma build_inv (nf nl nc : Z) (cf : list Z) (h d ff : Z) (r : Q)
  (m : Model) :
  build_asl_model nf nl nc cf h d ff r = Ok m ->
  exists f0 f1 rest blk,
    cf = f0 :: f1 :: rest
    /\ 2 <= nf /\ 1 <= nl /\ 1 <= nc /\ 1 <= f0 /\ 1 <= f1
    /\ TransformerBlock.__init__ d h ff (Some r) = Ok blk.
Proof.
  intro Hm. unfold build_asl_model in Hm. cbv zeta in Hm.
  destruct cf as [|f0 [|f1 rest]].
  - discriminate Hm.
  - cbn [getitem nth_error bind channels last] in Hm.
    apply bind_inv in Hm. destruct Hm as (c & _ & Hm).
    apply bind_inv in Hm. destruct Hm as (x & _ & Hm).
    rewrite bn_shape in Hm. discriminate Hm.
  - exists f0, f1, rest.
    cbn [getitem nth_error bind channels last] in Hm.
    apply bind_inv in Hm. destruct Hm as (c & Hc & Hm).
    destruct (Conv1D_init_inv _ _ _ _ _ Hc) as (Hf0 & ->).
    rewrite conv_same_shape, Z.eqb_refl in Hm.
    destruct (Z.leb_spec 1 nl) as [Hnl|_];
      [|cbn [andb bind] in Hm; discriminate Hm].
    destruct (Z.leb_spec 1 nf) as [Hnf1|_];
      [|cbn [andb bind] in Hm; discriminate Hm].
    cbn [andb bind channels last] in Hm. rewrite bn_shape in Hm.
    cbn [bind channels last] in Hm.
    apply bind_inv in Hm. destruct Hm as (c2 & Hc2 & Hm).
    destruct (Conv1D_init_inv _ _ _ _ _ Hc2) as (Hf1 & ->).
    rewrite conv_same_shape, Z.eqb_refl, !is_true_leb in Hm by lia.
    cbn [andb bind channels last] in Hm. rewrite bn_shape in Hm.
    rewrite MaxPooling1D_init_2 in Hm. cbn [bind channels last] in Hm.
    rewrite pool2_shape in Hm.
    destruct (Z.leb_spec 2 nf) as [Hnf|_];
      [|cbn [bind] in Hm; discriminate Hm].
    cbn [bind channels last] in Hm.
    apply bind_inv in Hm. destruct Hm as (dp & Hdp & Hm).
    destruct (Dense_init_inv _ _ _ Hdp) as (Hd & ->).
    rewrite dense_shape_sequence in Hm. cbn [bind channels last] in Hm.
    rewrite positional_encoding_shape in Hm.
    cbn [bind channels last] in Hm.
    apply bind_inv in Hm. destruct Hm as (dr & Hdr & Hm).
    destruct (Dropout_init_inv _ _ Hdr) as (Hr0 & Hr1 & ->).
    rewrite dropout_shape in Hm. cbn [bind channels last] in Hm.
    apply bind_inv in Hm. destruct Hm as (blk & Hblk & Hm).
    exists blk.
    rewrite (block_shape blk d h ff (Some r) (nf / 2) false Hblk) in Hm.
    cbn [bind channels last] in Hm. rewrite gap_shape in Hm.
    cbn [bind channels last] in Hm.
    rewrite !Dense_init_ok in Hm by lia. cbn [bind channels last] in Hm.
    rewrite dense_shape_vector in Hm. cbn [bind channels last] in Hm.
    rewrite !Dropout_init_ok in Hm by assumption.
    cbn [bind channels last] in Hm.
    rewrite dropout_shape in Hm. cbn [bind channels last] in Hm.
    rewrite dense_shape_vector in Hm. cbn [bind channels last] in Hm.
    rewrite dropout_shape in Hm. cbn [bind channels last] in Hm.
    apply bind_inv in Hm. destruct Hm as (dout & Hdout & Hm).
    destruct (Dense_init_inv _ _ _ Hdout) as (Hnc & ->).
    repeat split; assumption || reflexivity.
Qed.

(** Replaces a model that [build_asl_model] returned by the record the
    function builds. *)
Ltac built_model Hm :=
  let f0 := fresh "f0" in
  let f1 := fresh "f1" in
  let rest := fresh "rest" in
  let blk := fresh "blk" in
  let Hnf := fresh "Hnf" in
  let Hnl := fresh "Hnl" in
  let Hnc := fresh "Hnc" in
  let Hf0 := fresh "Hf0" in
  let Hf1 := fresh "Hf1" in
  let Hblk := fresh "Hblk" in
  let Hcf := fresh "Hcf" in
  destruct (build_inv _ _ _ _ _ _ _ _ _ Hm)
    as (f0 & f1 & rest & blk & Hcf & Hnf & Hnl & Hnc & Hf0 & Hf1 & Hblk);
  rewrite Hcf in *;
  rewrite (build_ok_explicit _ _ _ _ _ _ _ _ _ _ _
             Hnf Hnl Hnc Hf0 Hf1 Hblk) in Hm;
  injection Hm as Hm;
  match type of Hm with _ = ?m => subst m end.

Lemma build_ok (nf nl nc : Z) (cf : list Z) (h d ff : Z) (r : Q) :
  sane_arguments nf nl nc cf h d ff r ->
  (2 <= List.length cf)%nat ->
  exists m, build_asl_model nf nl nc cf h d ff r = Ok m.
Proof.
  intros (Hnf & Hnl & Hnc & Hcf & Hs) Hlen.
  destruct cf as [|f0 [|f1 rest]]; cbn in Hlen; try lia.
  pose proof (Forall_inv Hcf) as Hf0.
  pose proof (Forall_inv (Forall_inv_tail Hcf)) as Hf1.
  cbn beta in Hf0, Hf1.
  eexists.
  apply build_ok_explicit; try assumption.
  apply (init_ok d h ff (Some r)). exact Hs.
Qed.





(* ===================================================================== *)
(** * Forward evaluation: lengths and shapes                              *)
(* ===================================================================== *)

Lemma conv_same_call (f k : Z) (a : activation) (ic b n : Z)
  (training : bool) :
  1 <= b -> 1 <= n -> 1 <= ic ->
  Layer_call
    (LConv1D {| filters := f; kernel_size := k; conv_activation := a;
                conv_padding := same |} ic) [b; n; ic] training
  = Ok [b; n; f].
Proof.
  intros Hb Hn Hic. unfold Layer_call.
  rewrite conv_same_shape, Z.eqb_refl, !is_true_leb by lia.
  reflexivity.
Qed.

Lemma pool2_call (b n c : Z) (training : bool) :
  2 <= n ->
  Layer_call (LMaxPooling1D {| pool_size := 2 |}) [b; n; c] training
  = Ok [b; n / 2; c].
Proof.
  intro Hn. unfold Layer_call. cbn [bind].
  rewrite pool2_shape, is_true_leb by lia. reflexivity.
Qed.

Lemma pool2_call_short (b n c : Z) (training : bool) :
  n <= 1 ->
  Layer_call (LMaxPooling1D {| pool_size := 2 |}) [b; n; c] training
  = Raise (ValueError "the computed output would be empty").
Proof.
  intro Hn. unfold Layer_call. cbn [bind]. rewrite pool2_shape.
  destruct (Z.leb_spec 2 n); [lia | reflexivity].
Qed.

(** C6, as stated, fails: 1 is an input length, and on a sequence of
    length 1 the pooling stage of the default model, and with it the CNN
    block, raises instead of returning length floor(1 / 2) = 0. *)
Lemma pooling_rejects_length_one :
  find_layer "maxpool" default_model
  = Some (LMaxPooling1D {| pool_size := 2 |})
  /\ is_ok (Layer_call (LMaxPooling1D {| pool_size := 2 |}) [2; 1; 128]
              false) = false
  /\ is_ok (Layers_call (cnn_block default_model) [2; 1; 63] false) = false.
Proof. repeat split. Qed.

(** C6, amended: in every model [build_asl_model] returns, each of the
    two convolution stages keeps the length n of a sequence, n at least
    1, and the pooling stage maps a length k of at least 2 to
    floor(k / 2); the whole CNN block takes length k to floor(k / 2), and
    30 to 15. *)
Theorem cnn_block_halves_length
  (nf nl nc : Z) (cf : list Z) (h d ff : Z) (r : Q) (m : Model)
  (b n k c : Z) (training : bool) :
  build_asl_model nf nl nc cf h d ff r = Ok m ->
  1 <= b -> 1 <= n -> 2 <= k ->
  exists conv1 conv2 pool f0 f1,
    nth_error cf 0 = Some f0
    /\ nth_error cf 1 = Some f1
    /\ conv1 = LConv1D {| filters := f0; kernel_size := 3;
                          conv_activation := relu; conv_padding := same |}
                       nl
    /\ conv2 = LConv1D {| filters := f1; kernel_size := 3;
                          conv_activation := relu; conv_padding := same |}
                       f0
    /\ pool = LMaxPooling1D {| pool_size := 2 |}
    /\ find_layer "conv1d_1" m = Some conv1
    /\ find_layer "conv1d_2" m = Some conv2
    /\ find_layer "maxpool" m = Some pool
    /\ Layer_call conv1 [b; n; nl] training = Ok [b; n; f0]
    /\ Layer_call conv2 [b; n; f0] training = Ok [b; n; f1]
    /\ Layer_call pool [b; k; c] training = Ok [b; k / 2; c]
    /\ Layers_call (cnn_block m) [b; k; nl] training = Ok [b; k / 2; f1]
    /\ Layers_call (cnn_block m) [b; 30; nl] training = Ok [b; 15; f1].
Proof.
  intros Hm Hb Hn Hk. built_model Hm.
  do 3 eexists. exists f0, f1.
  do 2 (split; [reflexivity|]).
  do 3 (split; [reflexivity|]).
  do 3 (split; [reflexivity|]).
  split; [apply conv_same_call; lia|].
  split; [apply conv_same_call; lia|].
  split; [apply pool2_call; lia|].
  match goal with
  | |- context [cnn_block ?m] =>
      assert (Hblock : forall x, 2 <= x ->
                Layers_call (cnn_block m) [b; x; nl] training
                = Ok [b; x / 2; f1])
  end.
  { intros x Hx. unfold cnn_block. cbn [model_layers firstn Layers_call].
    rewrite conv_same_call by lia. cbn [bind].
    unfold Layer_call at 1. rewrite bn_shape. cbn [bind].
    rewrite conv_same_call by lia. cbn [bind].
    unfold Layer_call at 1. rewrite bn_shape. cbn [bind].
    rewrite pool2_call by lia. reflexivity. }
  split; [apply Hblock; lia|].
  apply (Hblock 30). lia.
Qed.

Lemma cnn_block_halves_length_witness :
  build_asl_model 30 63 100 [64; 128] 4 128 256 (3 # 10) = Ok default_model
  /\ 1 <= 2 /\ 1 <= 1 /\ 2 <= 31
  /\ exists conv1 conv2 pool f0 f1,
       nth_error [64; 128] 0 = Some f0
       /\ nth_error [64; 128] 1 = Some f1
       /\ conv1 = LConv1D {| filters := f0; kernel_size := 3;
                             conv_activation := relu; conv_padding := same |}
                          63
       /\ conv2 = LConv1D {| filters := f1; kernel_size := 3;
                             conv_activation := relu; conv_padding := same |}
                          f0
       /\ pool = LMaxPooling1D {| pool_size := 2 |}
       /\ find_layer "conv1d_1" default_model = Some conv1
       /\ find_layer "conv1d_2" default_model = Some conv2
       /\ find_layer "maxpool" default_model = Some pool
       /\ Layer_call conv1 [2; 1; 63] false = Ok [2; 1; f0]
       /\ Layer_call conv2 [2; 1; f0] false = Ok [2; 1; f1]
       /\ Layer_call pool [2; 31; 7] false = Ok [2; 31 / 2; 7]
       /\ Layers_call (cnn_block default_model) [2; 31; 63] false
          = Ok [2; 31 / 2; f1]
       /\ Layers_call (cnn_block default_model) [2; 30; 63] false
          = Ok [2; 15; f1].
Proof.
  split; [reflexivity|].
  split; [lia|]. split; [lia|]. split; [lia|].
  apply (cnn_block_halves_length 30 63 100 [64; 128] 4 128 256 (3 # 10)
           default_model 2 1 31 7 false); [reflexivity | lia | lia | lia].
Defined.

(** A model [build_asl_model] returns maps a batch of B sequences of
    any length of at least 2 and of width [num_landmarks] to a
    (B, num_classes) output: the layers do not depend on the number of
    frames. *)
Lemma Model_call_any_length
  (nf nl nc : Z) (cf : list Z) (h d ff : Z) (r : Q) (m : Model)
  (b n : Z) (training : bool) :
  build_asl_model nf nl nc cf h d ff r = Ok m ->
  1 <= b -> 2 <= n ->
  Model_call m [b; n; nl] training = Ok [b; nc].
Proof.
  intros Hm Hb Hn. built_model Hm.
  unfold Model_call. cbn [model_layers Layers_call].
  rewrite conv_same_call by lia. cbn [bind].
  unfold Layer_call at 1. rewrite bn_shape. cbn [bind].
  rewrite conv_same_call by lia. cbn [bind].
  unfold Layer_call at 1. rewrite bn_shape. cbn [bind].
  rewrite pool2_call by lia. cbn [bind].
  unfold Layer_call.
  rewrite dense_shape_sequence. cbn [bind].
  rewrite positional_encoding_shape. cbn [bind].
  rewrite dropout_shape. cbn [bind].
  rewrite (block_shape blk d h ff (Some r) (n / 2) training Hblk).
  cbn [bind]. rewrite gap_shape. cbn [bind].
  rewrite dense_shape_vector. cbn [bind].
  rewrite dropout_shape. cbn [bind].
  rewrite dense_shape_vector. cbn [bind].
  rewrite dropout_shape. cbn [bind].
  rewrite dense_shape_vector. reflexivity.
Qed.

(** The shape half of the output contract: a model [build_asl_model]
    returns maps a batch of B sequences of the declared shape, B at least
    1, to a (B, num_classes) output. *)
Lemma Model_call_output_shape
  (nf nl nc : Z) (cf : list Z) (h d ff : Z) (r : Q) (m : Model)
  (b : Z) (training : bool) :
  build_asl_model nf nl nc cf h d ff r = Ok m ->
  1 <= b ->
  Model_call m [b; nf; nl] training = Ok [b; nc].
Proof.
  intros Hm Hb.
  destruct (build_inv _ _ _ _ _ _ _ _ _ Hm)
    as (_ & _ & _ & _ & _ & Hnf & _).
  apply (Model_call_any_length nf nl nc cf h d ff r m b nf training Hm Hb Hnf).
Qed.




(* ===================================================================== *)
(** * compile_model                                                       *)
(* ===================================================================== *)

(** C9: [compile_model] declares the Adam optimizer with the learning
    rate it is given, the categorical cross-entropy loss, and two metrics,
    accuracy and top-5 categorical accuracy, and nothing else; the model's
    input declaration and layers, hence its evaluation, are untouched.
    An omitted learning rate stands for 0.001. *)
Theorem compile_model_declaration (model : Model) (learning_rate : Q) :
  model_compiled (compile_model model (Some learning_rate))
  = Some {| optimizer := Adam learning_rate;
            loss := "categorical_crossentropy";
            metrics := [ MetricName "accuracy";
                         TopKCategoricalAccuracy 5 "top5_accuracy" ] |}
  /\ model_inputs (compile_model model (Some learning_rate))
     = model_inputs model
  /\ model_layers (compile_model model (Some learning_rate))
     = model_layers model
  /\ (forall s training,
        Model_call (compile_model model (Some learning_rate)) s training
        = Model_call model s training)
  /\ compile_model model None = compile_model model (Some (1 # 1000)).
Proof. repeat split. Qed.

(* ===================================================================== *)
(** * Further properties of the model file                                *)
(* ===================================================================== *)

(** X1: the layout of the matrix [PositionalEncoding.call] adds.  Row p
    has [d_model] columns; its first ceil(d_model / 2) columns are the
    sines of the even columns of [angles], column i holding
    sin(angles[p][2 i]), and the remaining ones the cosines of the odd
    columns, column ceil(d_model / 2) + k holding cos(angles[p][2 k + 1]). *)
Theorem pos_encoding_layout {T : Type} `{Float T}
  (seq_length d_model p : nat) :
  (p < seq_length)%nat ->
  exists row,
    nth_error (PositionalEncoding.pos_encoding seq_length d_model) p
    = Some row
    /\ List.length row = d_model
    /\ (forall i, (2 * i < d_model)%nat ->
          nth_error row i
          = Some (fsin (PositionalEncoding.angle d_model
                          (of_Z (Z.of_nat p)) (of_Z (Z.of_nat (2 * i))))))
    /\ (forall k, (2 * k + 1 < d_model)%nat ->
          nth_error row (Nat.div2 (S d_model) + k)
          = Some (fcos (PositionalEncoding.angle d_model
                          (of_Z (Z.of_nat p))
                          (of_Z (Z.of_nat (2 * k + 1)))))).
Proof.
  intro Hp. exists (pos_row d_model (of_Z (Z.of_nat p))).
  split; [apply nth_error_pos_encoding; exact Hp|].
  split; [apply length_pos_row|].
  split; [intros i Hi; apply pos_row_sines; exact Hi|].
  intros k Hk. apply pos_row_cosines. exact Hk.
Qed.

Lemma pos_encoding_layout_witness :
  (1 < 2)%nat
  /\ exists row : list term,
       nth_error (PositionalEncoding.pos_encoding 2 5) 1 = Some row
       /\ List.length row = 5%nat
       /\ (forall i, (2 * i < 5)%nat ->
             nth_error row i
             = Some (fsin (PositionalEncoding.angle 5
                             (of_Z (Z.of_nat 1))
                             (of_Z (Z.of_nat (2 * i))))))
       /\ (forall k, (2 * k + 1 < 5)%nat ->
             nth_error row (Nat.div2 (S 5) + k)
             = Some (fcos (PositionalEncoding.angle 5
                             (of_Z (Z.of_nat 1))
                             (of_Z (Z.of_nat (2 * k + 1)))))).
Proof.
  split; [lia|].
  apply (pos_encoding_layout (T:=term) 2 5 1). lia.
Defined.

(** X2: for every sequence length and width, odd widths and 0 included,
    the matrix has exactly [seq_length] rows of [d_model] columns, and the
    final slice [pos_encoding[:, :d_model]] removes nothing: the matrix is
    the concatenation of the sine and the cosine halves as it stands. *)
Theorem pos_encoding_slice_is_identity {T : Type} `{Float T}
  (seq_length d_model : nat) :
  List.length (PositionalEncoding.pos_encoding seq_length d_model)
  = seq_length
  /\ Forall (fun row => List.length row = d_model)
            (PositionalEncoding.pos_encoding seq_length d_model)
  /\ PositionalEncoding.pos_encoding seq_length d_model
     = concat_last
         (map (map fsin)
              (even_columns (PositionalEncoding.angles seq_length d_model)))
         (map (map fcos)
              (odd_columns (PositionalEncoding.angles seq_length d_model))).
Proof.
  split; [apply length_pos_encoding|]. split.
  - rewrite pos_encoding_rows. apply Forall_forall.
    intros row Hin. apply in_map_iff in Hin. destruct Hin as (p & <- & _).
    apply length_pos_row.
  - rewrite pos_encoding_rows.
    unfold PositionalEncoding.angles, concat_last, even_columns, odd_columns.
    cbv zeta. rewrite !map_map, map2_map_same.
    apply map_ext. intro p. reflexivity.
Qed.

Lemma nth_error_map2 {A B C : Type} (f : A -> B -> C) (l : list A)
  (l' : list B) (i : nat) :
  nth_error (map2 f l l') i
  = match nth_error l i, nth_error l' i with
    | Some a, Some b => Some (f a b)
    | _, _ => None
    end.
Proof.
  revert l' i. induction l as [|a l IH]; intros l' i.
  - destruct i; reflexivity.
  - destruct l' as [|b l'].
    + destruct i; cbn; [reflexivity|]. destruct (nth_error l i); reflexivity.
    + destruct i as [|i]; [reflexivity|]. cbn. apply IH.
Qed.

Lemma length_map2 {A B C : Type} (f : A -> B -> C) (l : list A)
  (l' : list B) :
  List.length (map2 f l l') = Nat.min (List.length l) (List.length l').
Proof.
  revert l'. induction l as [|a l IH]; intros [|b l']; cbn; auto.
Qed.

(** X3: on an input whose data fills its shape, [call] returns a tensor
    of the same shape whose data fills it too, and every entry of the
    result is the entry of the input plus the entry of the positional
    matrix at the same position and channel: the broadcast over the batch
    drops and adds nothing. *)
Theorem call_adds_entrywise {T : Type} `{Float T}
  (self : PositionalEncoding.t) (inputs : Tensor3 T) :
  well_formed inputs ->
  let out := snd (PositionalEncoding.call self inputs) in
  t_shape out = t_shape inputs
  /\ well_formed out
  /\ forall b p i v,
       get3 (t_data inputs) b p i = Some v ->
       exists e,
         get2 (PositionalEncoding.pos_encoding (dim1 inputs) (dim2 inputs))
              p i = Some e
         /\ get3 (t_data out) b p i = Some (fadd v e).
Proof.
  destruct inputs as [[[B L] D] data].
  unfold well_formed, PositionalEncoding.call, PositionalEncoding.added_matrix,
    PositionalEncoding.add_broadcast, dim1, dim2.
  cbn [t_shape t_data fst snd]. intros [HB Hdata]. cbv zeta.
  split; [reflexivity|]. split; [split|].
  - rewrite length_map. exact HB.
  - apply Forall_map. revert Hdata. apply Forall_impl.
    intros m [Hm Hrows]. split.
    + rewrite length_map2, length_pos_encoding, Hm. apply Nat.min_id.
    + apply Forall_forall. intros row Hin.
      apply In_nth_error in Hin. destruct Hin as [p Hp].
      rewrite nth_error_map2 in Hp.
      destruct (nth_error m p) as [r|] eqn:Er; [|discriminate].
      destruct (nth_error (PositionalEncoding.pos_encoding L D) p)
        as [e|] eqn:Ee; [|discriminate].
      injection Hp as <-. rewrite length_map2.
      rewrite Forall_forall in Hrows.
      rewrite (Hrows r (nth_error_In _ _ Er)).
      assert (He : List.length e = D).
      { rewrite pos_encoding_rows in Ee. rewrite nth_error_map in Ee.
        destruct (nth_error (tf_range L) p); [|discriminate].
        injection Ee as <-. apply length_pos_row. }
      rewrite He. apply Nat.min_id.
  - intros b p i v Hv. unfold get3 in *. rewrite nth_error_map.
    destruct (nth_error data b) as [m|] eqn:Em; [|discriminate].
    cbn [option_map]. unfold get2 in *. rewrite nth_error_map2.
    destruct (nth_error m p) as [r|] eqn:Er; [|discriminate].
    rewrite Forall_forall in Hdata.
    destruct (Hdata m (nth_error_In _ _ Em)) as [Hm Hrows].
    rewrite Forall_forall in Hrows.
    pose proof (Hrows r (nth_error_In _ _ Er)) as Hr.
    assert (Hp : (p < L)%nat).
    { rewrite <- Hm. apply nth_error_Some. rewrite Er. discriminate. }
    assert (Hi : (i < D)%nat).
    { rewrite <- Hr. apply nth_error_Some. rewrite Hv. discriminate. }
    rewrite (nth_error_pos_encoding L D p Hp).
    destruct (nth_error (pos_row D (of_Z (Z.of_nat p))) i) as [e|] eqn:Ee.
    + exists e. split; [reflexivity|].
      rewrite nth_error_map2, Hv, Ee. reflexivity.
    + exfalso. apply nth_error_None in Ee.
      rewrite length_pos_row in Ee. lia.
Qed.

Lemma call_adds_entrywise_witness :
  well_formed example_y
  /\ t_shape (snd (PositionalEncoding.call example_layer_1 example_y))
     = t_shape example_y
  /\ well_formed (snd (PositionalEncoding.call example_layer_1 example_y))
  /\ forall b p i v,
       get3 (t_data example_y) b p i = Some v ->
       exists e,
         get2 (PositionalEncoding.pos_encoding
                 (dim1 example_y) (dim2 example_y)) p i = Some e
         /\ get3 (t_data (snd (PositionalEncoding.call
                                 example_layer_1 example_y))) b p i
            = Some (fadd v e).
Proof.
  assert (W : well_formed example_y).
  { split; [reflexivity|]. repeat constructor. }
  split; [exact W|].
  exact (call_adds_entrywise example_layer_1 example_y W).
Defined.

Local Open Scope R_scope.

Lemma floordiv_2_even (k : Z) : Int_part (IZR (2 * k) / 2) = k.
Proof.
  symmetry. apply Int_part_spec. rewrite mult_IZR. lra.
Qed.

Lemma floordiv_2_odd (k : Z) : Int_part (IZR (2 * k + 1) / 2) = k.
Proof.
  symmetry. apply Int_part_spec. rewrite plus_IZR, mult_IZR. lra.
Qed.

(** Over the reals an even column of [angles] and the odd column after it
    hold the same angle: [dimensions // 2] is the same for both. *)
Lemma angle_pair (d_model : nat) (p : R) (k : nat) :
  PositionalEncoding.angle (T:=R) d_model p
    (of_Z (Z.of_nat (2 * k + 1)))
  = PositionalEncoding.angle (T:=R) d_model p (of_Z (Z.of_nat (2 * k))).
Proof.
  unfold PositionalEncoding.angle. cbn [of_Z ffloordiv fmul fdiv fpow R_Float].
  replace (Z.of_nat (2 * k + 1)) with (2 * Z.of_nat k + 1)%Z by lia.
  replace (Z.of_nat (2 * k)) with (2 * Z.of_nat k)%Z by lia.
  rewrite floordiv_2_even, floordiv_2_odd. reflexivity.
Qed.

Local Close Scope R_scope.

(** X4: over the reals, the sine in column k of a row and the cosine in
    column ceil(d_model / 2) + k are taken at the same angle
    p / 10000^(2 k / d_model), so their squares sum to 1: the pairs of the
    usual encoding are all there, k columns apart instead of adjacent. *)
Theorem pos_encoding_pairs_on_unit_circle
  (seq_length d_model p k : nat) :
  (p < seq_length)%nat -> (2 * k + 1 < d_model)%nat ->
  exists row s c,
    nth_error (PositionalEncoding.pos_encoding (T:=R) seq_length d_model) p
    = Some row
    /\ nth_error row k = Some s
    /\ nth_error row (Nat.div2 (S d_model) + k) = Some c
    /\ s = sin (PositionalEncoding.angle d_model (IZR (Z.of_nat p))
                  (IZR (Z.of_nat (2 * k))))
    /\ c = cos (PositionalEncoding.angle d_model (IZR (Z.of_nat p))
                  (IZR (Z.of_nat (2 * k))))
    /\ (s * s + c * c = 1)%R.
Proof.
  intros Hp Hk.
  exists (pos_row d_model (of_Z (Z.of_nat p))). eexists. eexists.
  split; [apply nth_error_pos_encoding; exact Hp|].
  split; [apply pos_row_sines; lia|].
  split; [apply pos_row_cosines; exact Hk|].
  cbn [fsin fcos of_Z R_Float].
  split; [reflexivity|].
  split; [rewrite (angle_pair d_model _ k); reflexivity|].
  rewrite (angle_pair d_model _ k).
  pose proof (sin2_cos2
    (PositionalEncoding.angle d_model (IZR (Z.of_nat p))
       (IZR (Z.of_nat (2 * k))))) as E.
  unfold Rsqr in E. exact E.
Qed.

Lemma pos_encoding_pairs_on_unit_circle_witness :
  (2 < 3)%nat /\ (2 * 1 + 1 < 4)%nat
  /\ exists row s c,
       nth_error (PositionalEncoding.pos_encoding (T:=R) 3 4) 2 = Some row
       /\ nth_error row 1 = Some s
       /\ nth_error row (Nat.div2 (S 4) + 1) = Some c
       /\ s = sin (PositionalEncoding.angle 4 (IZR (Z.of_nat 2))
                     (IZR (Z.of_nat (2 * 1))))
       /\ c = cos (PositionalEncoding.angle 4 (IZR (Z.of_nat 2))
                     (IZR (Z.of_nat (2 * 1))))
       /\ (s * s + c * c = 1)%R.
Proof.
  split; [lia|]. split; [lia|].
  apply (pos_encoding_pairs_on_unit_circle 3 4 2 1); lia.
Defined.

(** X5: [get_config] keeps the four constructor arguments, so a block
    rebuilt from its configuration is the block itself: for arguments the
    layers accept, the constructor succeeds, [get_config] of the block is
    the four arguments (0.1 for an omitted rate), and the constructor
    applied to them again returns an equal block. *)
Theorem get_config_round_trip (e h f : Z) (r : option Q) :
  sane_block e h f (dropout_of r) ->
  exists blk,
    TransformerBlock.__init__ e h f r = Ok blk
    /\ TransformerBlock.get_config blk = (e, h, f, dropout_of r)
    /\ (let '(e', h', f', r') := TransformerBlock.get_config blk in
        TransformerBlock.__init__ e' h' f' (Some r')) = Ok blk.
Proof.
  intro Hs. eexists. split; [apply (init_ok e h f r Hs)|].
  split; [reflexivity|].
  cbn [TransformerBlock.get_config TransformerBlock.embed_dim
       TransformerBlock.num_heads TransformerBlock.ff_dim
       TransformerBlock.dropout_rate].
  apply (init_ok e h f (Some (dropout_of r))). exact Hs.
Qed.

Lemma sane_example_block : sane_block 128 4 256 (3 # 10).
Proof. unfold sane_block, Qle. cbn. lia. Qed.

Lemma get_config_round_trip_witness :
  sane_block 128 4 256 (dropout_of (Some (3 # 10)))
  /\ exists blk,
       TransformerBlock.__init__ 128 4 256 (Some (3 # 10)) = Ok blk
       /\ TransformerBlock.get_config blk
          = (128, 4, 256, dropout_of (Some (3 # 10)))
       /\ (let '(e', h', f', r') := TransformerBlock.get_config blk in
           TransformerBlock.__init__ e' h' f' (Some r')) = Ok blk.
Proof.
  split; [exact sane_example_block|].
  exact (get_config_round_trip 128 4 256 (Some (3 # 10))
           sane_example_block).
Defined.

Lemma broadcast_last (b L x y : Z) :
  broadcast [b; L; x] [b; L; y]
  = if Z.eqb x y then Ok [b; L; x]
    else if Z.eqb x 1 then Ok [b; L; y]
    else if Z.eqb y 1 then Ok [b; L; x]
    else Raise (ValueError "shapes cannot be broadcast").
Proof.
  unfold broadcast. cbn [rev app broadcast_rev bind].
  rewrite !Z.eqb_refl. cbn [bind].
  destruct (Z.eqb x y); [reflexivity|].
  destruct (Z.eqb x 1); [reflexivity|].
  destruct (Z.eqb y 1); reflexivity.
Qed.

(** X6: what a block returns on an input whose width D is not
    necessarily its [embed_dim] e.  The feed-forward stack always returns
    width e, and the second residual addition broadcasts: the call returns
    the input shape when D = e or e = 1, the shape widened to e when
    D = 1, and raises otherwise.  Width equal to [embed_dim] is what keeps
    the shape, up to these two degenerate cases. *)
Theorem transformer_block_call_shape
  (e h f : Z) (r : option Q) (blk : TransformerBlock.t)
  (b L D : Z) (training : option bool) :
  sane_block e h f (dropout_of r) ->
  0 <= b -> 1 <= L -> 1 <= D ->
  TransformerBlock.__init__ e h f r = Ok blk ->
  TransformerBlock.call blk [b; L; D] training
  = if Z.eqb D e then Ok [b; L; D]
    else if Z.eqb D 1 then Ok [b; L; e]
    else if Z.eqb e 1 then Ok [b; L; D]
    else Raise (ValueError "shapes cannot be broadcast").
Proof.
  intros _ _ _ _ Hinit.
  destruct (init_inv _ _ _ _ _ Hinit) as (_ & ->).
  unfold TransformerBlock.call.
  cbn [TransformerBlock.ffn TransformerBlock.attention
       TransformerBlock.dropout1 TransformerBlock.dropout2
       TransformerBlock.layernorm1 TransformerBlock.layernorm2
       MultiHeadAttention_call Dropout_call LayerNormalization_call
       tensor_add shape_Backend bind].
  rewrite broadcast_same. cbn [bind Sequential_call Dense_call shape_Backend
    Dense_shape removelast app units].
  rewrite broadcast_last.
  destruct (Z.eqb D e); [reflexivity|].
  destruct (Z.eqb D 1); [reflexivity|].
  destruct (Z.eqb e 1); reflexivity.
Qed.

Lemma transformer_block_call_shape_witness :
  sane_block 128 4 256 (dropout_of (Some (3 # 10)))
  /\ TransformerBlock.__init__ 128 4 256 (Some (3 # 10)) = Ok example_block
  /\ TransformerBlock.call example_block [2; 15; 64] None
     = Raise (ValueError "shapes cannot be broadcast")
  /\ TransformerBlock.call example_block [2; 15; 1] None = Ok [2; 15; 128].
Proof.
  split; [exact sane_example_block|].
  split; [reflexivity|]. split.
  - apply (transformer_block_call_shape 128 4 256 (Some (3 # 10))
             example_block 2 15 64 None);
      [exact sane_example_block | lia | lia | lia | reflexivity].
  - apply (transformer_block_call_shape 128 4 256 (Some (3 # 10))
             example_block 2 15 1 None);
      [exact sane_example_block | lia | lia | lia | reflexivity].
Defined.

(** X7: which exception construction ends with, the arguments the
    framework sees before the block being ones it accepts.  Fewer than
    two filter widths give [IndexError], whatever the head count, 0
    included, because the widths are read before the block is built; with
    two widths or more, a head count of 0 gives the [ZeroDivisionError] of
    [embed_dim // num_heads]. *)
Theorem build_asl_model_error_order
  (nf nl nc : Z) (cf : list Z) (h d ff : Z) (r : Q) :
  sane_before_block nf nl cf d r ->
  ((List.length cf < 2)%nat ->
     build_asl_model nf nl nc cf h d ff r = Raise IndexError)
  /\ ((2 <= List.length cf)%nat -> h = 0 ->
        build_asl_model nf nl nc cf h d ff r = Raise ZeroDivisionError).
Proof.
  intros (Hnf & Hnl & Hcf & Hd & Hr0 & Hr1). split.
  - intro Hlen. destruct cf as [|f0 [|f1 cf]]; cbn in Hlen; try lia;
      [reflexivity|].
    pose proof (Forall_inv Hcf) as Hf0. cbn beta in Hf0.
    unfold build_asl_model. cbv zeta.
    cbn [getitem nth_error bind channels last].
    rewrite !Conv1D_init_ok by lia. cbn [bind].
    rewrite conv_same_shape, Z.eqb_refl, !is_true_leb by lia.
    cbn [andb bind channels last]. rewrite bn_shape. reflexivity.
  - intros Hlen ->. destruct cf as [|f0 [|f1 cf]]; cbn in Hlen; try lia.
    pose proof (Forall_inv Hcf) as Hf0.
    pose proof (Forall_inv (Forall_inv_tail Hcf)) as Hf1.
    cbn beta in Hf0, Hf1.
    unfold build_asl_model. cbv zeta.
    cbn [getitem nth_error bind channels last].
    rewrite !Conv1D_init_ok by lia. cbn [bind].
    rewrite conv_same_shape, Z.eqb_refl, !is_true_leb by lia.
    cbn [andb bind channels last]. rewrite bn_shape.
    cbn [bind channels last].
    rewrite conv_same_shape, Z.eqb_refl, !is_true_leb by lia.
    cbn [andb bind channels last]. rewrite bn_shape.
    rewrite MaxPooling1D_init_2. cbn [bind channels last].
    rewrite pool2_shape, is_true_leb by lia. cbn [bind channels last].
    rewrite Dense_init_ok by lia. cbn [bind channels last].
    rewrite dense_shape_sequence. cbn [bind channels last].
    rewrite positional_encoding_shape. cbn [bind channels last].
    rewrite !Dropout_init_ok by assumption. cbn [bind channels last].
    rewrite dropout_shape. reflexivity.
Qed.

Lemma build_asl_model_error_order_witness :
  sane_before_block 30 63 [64] 128 (3 # 10)
  /\ sane_before_block 30 63 [64; 128] 128 (3 # 10)
  /\ (List.length [64] < 2)%nat
  /\ build_asl_model 30 63 100 [64] 0 128 256 (3 # 10) = Raise IndexError
  /\ (2 <= List.length [64; 128])%nat
  /\ build_asl_model 30 63 100 [64; 128] 0 128 256 (3 # 10)
     = Raise ZeroDivisionError.
Proof.
  assert (S1 : sane_before_block 30 63 [64] 128 (3 # 10)).
  { unfold sane_before_block, Qle. cbn.
    repeat split; try lia. repeat constructor; lia. }
  assert (S2 : sane_before_block 30 63 [64; 128] 128 (3 # 10)).
  { unfold sane_before_block, Qle. cbn.
    repeat split; try lia. repeat constructor; lia. }
  split; [exact S1|]. split; [exact S2|].
  split; [cbn; lia|]. split.
  - apply (build_asl_model_error_order 30 63 100 [64] 0 128 256 (3 # 10) S1).
    cbn. lia.
  - split; [cbn; lia|].
    apply (build_asl_model_error_order 30 63 100 [64; 128] 0 128 256
             (3 # 10) S2); [cbn; lia | reflexivity].
Defined.

Lemma sane_default_arguments :
  sane_arguments 30 63 100 [64; 128] 4 128 256 (3 # 10).
Proof.
  unfold sane_arguments, sane_block, Qle. cbn.
  repeat split; try lia. repeat constructor; lia.
Qed.

(** X9: for arguments the layers accept and at least two filter widths,
    the model built is a chain of fifteen layers under pairwise distinct
    names, so looking a layer up by its name returns that very layer. *)
Theorem layer_names_are_distinct
  (nf nl nc : Z) (cf : list Z) (h d ff : Z) (r : Q) :
  sane_arguments nf nl nc cf h d ff r ->
  (2 <= List.length cf)%nat ->
  exists m,
    build_asl_model nf nl nc cf h d ff r = Ok m
    /\ List.length (model_layers m) = 15%nat
    /\ NoDup (map fst (model_layers m))
    /\ forall name l,
         In (name, l) (model_layers m) -> find_layer name m = Some l.
Proof.
  intros Hs Hcf.
  destruct (build_ok nf nl nc cf h d ff r Hs Hcf) as [m Hm].
  exists m. split; [exact Hm|].
  built_model Hm. cbn [model_layers].
  split; [reflexivity|]. split.
  - cbn [map fst].
    repeat (constructor;
            [cbn [In]; intro Hin;
             repeat (destruct Hin as [Hin|Hin]; [discriminate|]);
             exact Hin|]).
    constructor.
  - intros name l Hin. cbn [In] in Hin.
    repeat (destruct Hin as [Hin|Hin];
            [injection Hin as <- <-; reflexivity|]).
    contradiction.
Qed.

Lemma layer_names_are_distinct_witness :
  sane_arguments 30 63 100 [64; 128] 4 128 256 (3 # 10)
  /\ (2 <= List.length [64; 128])%nat
  /\ exists m,
       build_asl_model 30 63 100 [64; 128] 4 128 256 (3 # 10) = Ok m
       /\ List.length (model_layers m) = 15%nat
       /\ NoDup (map fst (model_layers m))
       /\ forall name l,
            In (name, l) (model_layers m) -> find_layer name m = Some l.
Proof.
  split; [exact sane_default_arguments|].
  split; [cbn; lia|].
  exact (layer_names_are_distinct 30 63 100 [64; 128] 4 128 256 (3 # 10)
           sane_default_arguments ltac:(cbn; lia)).
Defined.

(* ===================================================================== *)
(** * The statement splitter of create_database.py                        *)
(* ===================================================================== *)

Module create_database_facts.
Import create_database.

Local Open Scope string_scope.

Local Abbreviation nl := (String newline EmptyString).

Lemma split_nonempty (s : string) (sep : ascii) :
  exists piece pieces, split s sep = piece :: pieces.
Proof.
  induction s as [|c s IH]; cbn [split].
  - eauto.
  - destruct (Ascii.eqb c sep); [eauto|].
    destruct IH as (piece & pieces & ->). eauto.
Qed.

Lemma split_app (a b : string) (sep : ascii) :
  split (a ++ String sep b) sep = (split a sep ++ split b sep)%list.
Proof.
  induction a as [|c a IH]; cbn [split append].
  - rewrite Ascii.eqb_refl. reflexivity.
  - destruct (Ascii.eqb c sep).
    + rewrite IH. reflexivity.
    + rewrite IH. destruct (split_nonempty a sep) as (piece & pieces & ->).
      reflexivity.
Qed.

Lemma split_without_sep (s : string) (sep : ascii) :
  has_char sep s = false -> split s sep = [s].
Proof.
  induction s as [|c s IH]; cbn [split has_char]; [reflexivity|].
  intro Hc. apply orb_false_iff in Hc. destruct Hc as [Hc Hs].
  rewrite Hc, (IH Hs). reflexivity.
Qed.

Lemma split_pieces_without_sep (s : string) (sep : ascii) :
  Forall (fun piece => has_char sep piece = false) (split s sep).
Proof.
  induction s as [|c s IH]; cbn [split].
  - repeat constructor.
  - destruct (Ascii.eqb c sep) eqn:Ec.
    + constructor; [reflexivity | exact IH].
    + destruct (split_nonempty s sep) as (piece & pieces & E).
      rewrite E in *. inversion IH as [|? ? Hp Hps]; subst.
      constructor; [|exact Hps]. cbn [has_char]. rewrite Ec, Hp. reflexivity.
Qed.

Lemma split_join (ls : list string) :
  ls <> [] ->
  Forall (fun l => has_char newline l = false) ls ->
  split (join nl ls) newline = ls.
Proof.
  induction ls as [|x ls IH]; [contradiction|].
  intros _ Hall. inversion Hall as [|? ? Hx Hls]; subst.
  destruct ls as [|y ls].
  - cbn [join]. apply split_without_sep. exact Hx.
  - change (join nl (x :: y :: ls)) with (x ++ String newline (join nl (y :: ls))).
    rewrite split_app, (split_without_sep x newline Hx).
    rewrite IH; [reflexivity | discriminate | exact Hls].
Qed.

(** The loop, command by command. *)
Lemma parse_loop_command_lines (lines commands cur : list string) :
  parse_loop lines commands cur
  = (commands ++ map (join nl) (command_lines lines cur))%list.
Proof.
  revert commands cur. induction lines as [|line rest IH];
    intros commands cur; cbn [parse_loop command_lines].
  - cbn. rewrite app_nil_r. reflexivity.
  - unfold skipped, closes.
    destruct (startswith (strip line) "--" || startswith (strip line) "#");
      cbn [orb]; [apply IH|].
    destruct (match strip line with EmptyString => true | _ => false end);
      cbn [orb]; [apply IH|].
    destruct (existsb _ _); [apply IH|].
    cbv zeta. destruct (endswith (strip line) ";").
    + rewrite IH. cbn [map]. rewrite <- app_assoc. reflexivity.
    + apply IH.
Qed.

Lemma command_lines_closed (lines cur : list string) :
  Forall stays_open cur ->
  Forall closed_command (command_lines lines cur).
Proof.
  revert cur. induction lines as [|line rest IH]; intros cur Hcur;
    cbn [command_lines]; [constructor|].
  destruct (skipped line) eqn:Es; [apply IH; exact Hcur|].
  destruct (closes line) eqn:Ec.
  - constructor; [|apply IH; constructor].
    exists cur, line. auto.
  - apply IH. apply Forall_app. split; [exact Hcur|].
    constructor; [split; assumption | constructor].
Qed.

Lemma pending_lines_open (lines cur : list string) :
  Forall stays_open cur -> Forall stays_open (pending_lines lines cur).
Proof.
  revert cur. induction lines as [|line rest IH]; intros cur Hcur;
    cbn [pending_lines]; [exact Hcur|].
  destruct (skipped line) eqn:Es; [apply IH; exact Hcur|].
  destruct (closes line) eqn:Ec; [apply IH; constructor|].
  apply IH. apply Forall_app. split; [exact Hcur|].
  constructor; [split; assumption | constructor].
Qed.

Lemma command_lines_conserve (lines cur : list string) :
  (cur ++ filter (fun l => negb (skipped l)) lines)%list
  = (List.concat (command_lines lines cur) ++ pending_lines lines cur)%list.
Proof.
  revert cur. induction lines as [|line rest IH]; intros cur;
    cbn [command_lines pending_lines filter List.concat].
  - rewrite app_nil_r. reflexivity.
  - destruct (skipped line) eqn:Es; cbn [negb]; [apply IH|].
    destruct (closes line) eqn:Ec.
    + cbn [List.concat]. rewrite <- app_assoc, <- (IH []). cbn [app].
      rewrite <- app_assoc. reflexivity.
    + rewrite <- IH, <- app_assoc. reflexivity.
Qed.

Lemma command_lines_count (lines cur : list string) :
  List.length (command_lines lines cur)
  = List.length (filter (fun l => negb (skipped l) && closes l) lines).
Proof.
  revert cur. induction lines as [|line rest IH]; intros cur;
    cbn [command_lines filter]; [reflexivity|].
  destruct (skipped line); cbn [negb andb]; [apply IH|].
  destruct (closes line); cbn [List.length]; [f_equal|]; apply IH.
Qed.

Lemma command_lines_without_newline (lines cur : list string) :
  Forall (fun l => has_char newline l = false) lines ->
  Forall (fun l => has_char newline l = false) cur ->
  Forall (Forall (fun l => has_char newline l = false))
         (command_lines lines cur).
Proof.
  revert cur. induction lines as [|line rest IH]; intros cur Hl Hcur;
    cbn [command_lines]; [constructor|].
  inversion Hl as [|? ? Hline Hrest]; subst.
  assert (Hcur' : Forall (fun l => has_char newline l = false)
                         (cur ++ [line])%list).
  { apply Forall_app. split; [exact Hcur | repeat constructor; exact Hline]. }
  destruct (skipped line); [apply IH; assumption|].
  destruct (closes line).
  - constructor; [exact Hcur'|]. apply IH; [assumption | constructor].
  - apply IH; assumption.
Qed.

Lemma groups_of_parse (text : string) :
  _parse_sql_commands text
  = map (join nl) (command_lines (split text newline) []).
Proof. apply (parse_loop_command_lines _ [] []). Qed.

Lemma groups_closed (text : string) :
  Forall closed_command (command_lines (split text newline) []).
Proof. apply command_lines_closed. constructor. Qed.

Lemma groups_without_newline (text : string) :
  Forall (Forall (fun l => has_char newline l = false))
         (command_lines (split text newline) []).
Proof.
  apply command_lines_without_newline;
    [apply split_pieces_without_sep | constructor].
Qed.

Lemma closed_command_nonempty (g : list string) :
  closed_command g -> g <> [].
Proof.
  intros (body & last & -> & _). destruct body; discriminate.
Qed.

Lemma split_join_group (g : list string) :
  closed_command g ->
  Forall (fun l => has_char newline l = false) g ->
  split (join nl g) newline = g.
Proof.
  intros Hg Hn. apply split_join; [apply closed_command_nonempty|];
    assumption.
Qed.

Lemma map_split_join (groups : list (list string)) :
  Forall closed_command groups ->
  Forall (Forall (fun l => has_char newline l = false)) groups ->
  map (fun c => split c newline) (map (join nl) groups) = groups.
Proof.
  induction groups as [|g groups IH]; intros Hc Hn; [reflexivity|].
  inversion Hc; inversion Hn; subst. cbn [map].
  rewrite split_join_group, IH by assumption. reflexivity.
Qed.

(** X10: every command the splitter returns is a non-empty string (so
    the caller's test [if cmd] never drops one), and read line by line it
    consists of lines that were not skipped, of which the last, and only
    the last, ends with a semicolon once stripped. *)
Theorem parsed_commands_are_closed (text c : string) :
  ascii_only text = true ->
  In c (_parse_sql_commands text) ->
  c <> EmptyString /\ closed_command (split c newline).
Proof.
  intros _. rewrite groups_of_parse. intro Hin.
  apply in_map_iff in Hin. destruct Hin as (g & <- & Hg).
  pose proof (groups_closed text) as Hc.
  pose proof (groups_without_newline text) as Hn.
  rewrite Forall_forall in Hc, Hn.
  specialize (Hc g Hg). specialize (Hn g Hg).
  pose proof (split_join_group g Hc Hn) as E.
  split; [|rewrite E; exact Hc].
  intro E0. rewrite E0 in E. cbn [split] in E. subst g.
  destruct Hc as (body & last & Eg & _ & Hs & _).
  destruct body as [|x [|y body]]; try discriminate.
  injection Eg as <-. discriminate Hs.
Qed.

Lemma parsed_commands_are_closed_witness :
  ascii_only example_schema = true
  /\ In "SELECT 1;  " (_parse_sql_commands example_schema)
  /\ "SELECT 1;  " <> EmptyString
  /\ closed_command (split "SELECT 1;  " newline).
Proof.
  assert (H : In "SELECT 1;  " (_parse_sql_commands example_schema)).
  { right. left. reflexivity. }
  split; [reflexivity|]. split; [exact H|].
  exact (parsed_commands_are_closed example_schema _ eq_refl H).
Defined.

(** X11: the splitter returns one command for each line that is not
    skipped and ends with a semicolon once stripped, no more and no fewer;
    a text with no such line, an empty text or one of comments only for
    instance, gives no command. *)
Theorem parsed_commands_count (text : string) :
  ascii_only text = true ->
  List.length (_parse_sql_commands text)
  = List.length
      (filter (fun l => negb (skipped l) && closes l)
              (split text newline)).
Proof.
  intros _. rewrite groups_of_parse, length_map. apply command_lines_count.
Qed.

Lemma parsed_commands_count_witness :
  ascii_only example_schema = true
  /\ List.length (_parse_sql_commands example_schema)
     = List.length
         (filter (fun l => negb (skipped l) && closes l)
                 (split example_schema newline)).
Proof.
  split; [reflexivity|].
  exact (parsed_commands_count example_schema eq_refl).
Defined.

(** X12: the splitter neither reorders, duplicates nor invents a line:
    the lines of the returned commands, in order, followed by the lines
    left open at the end of the text, are exactly the lines of the text
    that were not skipped.  The lines left open, a last statement without
    its semicolon, are in no command: they are dropped silently. *)
Theorem parsed_commands_conserve_lines (text : string) :
  ascii_only text = true ->
  filter (fun l => negb (skipped l)) (split text newline)
  = (List.concat (map (fun c => split c newline)
                      (_parse_sql_commands text))
     ++ pending_lines (split text newline) [])%list
  /\ Forall stays_open (pending_lines (split text newline) []).
Proof.
  intros _. split.
  - rewrite groups_of_parse.
    rewrite map_split_join
      by (apply groups_closed || apply groups_without_newline).
    apply (command_lines_conserve (split text newline) []).
  - apply pending_lines_open. constructor.
Qed.

Lemma parsed_commands_conserve_lines_witness :
  ascii_only example_schema = true
  /\ filter (fun l => negb (skipped l)) (split example_schema newline)
     = (List.concat (map (fun c => split c newline)
                         (_parse_sql_commands example_schema))
        ++ pending_lines (split example_schema newline) [])%list
  /\ Forall stays_open (pending_lines (split example_schema newline) []).
Proof.
  split; [reflexivity|].
  exact (parsed_commands_conserve_lines example_schema eq_refl).
Defined.

Lemma command_lines_app (l1 l2 cur : list string) :
  command_lines (l1 ++ l2) cur
  = (command_lines l1 cur ++ command_lines l2 (pending_lines l1 cur))%list.
Proof.
  revert cur. induction l1 as [|line rest IH]; intros cur;
    cbn [command_lines pending_lines app]; [reflexivity|].
  destruct (skipped line); [apply IH|].
  destruct (closes line); [rewrite IH; reflexivity | apply IH].
Qed.

Lemma command_lines_of_group (g cur : list string) :
  closed_command g ->
  command_lines g cur = [(cur ++ g)%list] /\ pending_lines g cur = [].
Proof.
  intros (body & last & -> & Hbody & Hs & Hc). revert cur.
  induction Hbody as [|x body [Hxs Hxc] _ IH]; intros cur;
    cbn [app command_lines pending_lines].
  - rewrite Hs, Hc. split; reflexivity.
  - rewrite Hxs, Hxc. destruct (IH (cur ++ [x])%list) as [E1 E2].
    rewrite E1, E2, <- app_assoc. split; reflexivity.
Qed.

Lemma command_lines_of_groups (groups : list (list string)) :
  Forall closed_command groups ->
  command_lines (List.concat groups) [] = groups
  /\ pending_lines (List.concat groups) [] = [].
Proof.
  induction 1 as [|g groups Hg _ [IH1 IH2]]; [split; reflexivity|].
  cbn [List.concat].
  destruct (command_lines_of_group g [] Hg) as [E1 E2].
  split.
  - rewrite command_lines_app, E1, E2, IH1. reflexivity.
  - assert (P : forall l1 l2 cur,
               pending_lines (l1 ++ l2) cur
               = pending_lines l2 (pending_lines l1 cur)).
    { induction l1 as [|line rest IHl]; intros l2 cur;
        cbn [pending_lines app]; [reflexivity|].
      destruct (skipped line); [apply IHl|].
      destruct (closes line); apply IHl. }
    rewrite P, E2. exact IH2.
Qed.

Lemma split_join_commands (groups : list (list string)) :
  groups <> [] ->
  Forall closed_command groups ->
  Forall (Forall (fun l => has_char newline l = false)) groups ->
  split (join nl (map (join nl) groups)) newline = List.concat groups.
Proof.
  induction groups as [|g groups IH]; [contradiction|].
  intros _ Hc Hn. inversion Hc; inversion Hn; subst.
  destruct groups as [|g' groups].
  - cbn [map join List.concat]. rewrite app_nil_r.
    apply split_join_group; assumption.
  - change (join nl (map (join nl) (g :: g' :: groups)))
      with (join nl g ++ String newline
              (join nl (map (join nl) (g' :: groups)))).
    rewrite split_app, split_join_group by assumption.
    rewrite IH by (assumption || discriminate). reflexivity.
Qed.

(** X13: the commands are stable under the splitter.  Joined again with
    newlines and split once more, they come back unchanged: what the
    splitter returns contains nothing it would skip or cut differently. *)
Theorem parsed_commands_reparse (text : string) :
  ascii_only text = true ->
  _parse_sql_commands (join nl (_parse_sql_commands text))
  = _parse_sql_commands text.
Proof.
  intros _. rewrite (groups_of_parse text).
  pose proof (groups_closed text) as Hc.
  pose proof (groups_without_newline text) as Hn.
  destruct (command_lines (split text newline) []) as [|g gs];
    [reflexivity|].
  rewrite groups_of_parse.
  rewrite split_join_commands by (assumption || discriminate).
  destruct (command_lines_of_groups (g :: gs) Hc) as [E _].
  rewrite E. reflexivity.
Qed.

Lemma parsed_commands_reparse_witness :
  ascii_only example_schema = true
  /\ _parse_sql_commands (join nl (_parse_sql_commands example_schema))
     = _parse_sql_commands example_schema.
Proof.
  split; [reflexivity|].
  exact (parsed_commands_reparse example_schema eq_refl).
Defined.

(** X14: texts compose.  When every statement of a first text is closed,
    that is, the splitter leaves no line of it open, splitting it followed
    by a second text on a new line gives the commands of the first
    followed by the commands of the second. *)
Theorem parsed_commands_append (a b : string) :
  ascii_only a = true -> ascii_only b = true ->
  pending_lines (split a newline) [] = [] ->
  _parse_sql_commands (a ++ String newline b)
  = (_parse_sql_commands a ++ _parse_sql_commands b)%list.
Proof.
  intros _ _ Hp. rewrite !groups_of_parse, split_app, command_lines_app, Hp.
  apply map_app.
Qed.

Lemma parsed_commands_append_witness :
  ascii_only "USE x;" = true /\ ascii_only "SELECT 1;" = true
  /\ pending_lines (split "USE x;" newline) [] = []
  /\ _parse_sql_commands ("USE x;" ++ String newline "SELECT 1;")
     = (_parse_sql_commands "USE x;" ++ _parse_sql_commands "SELECT 1;")%list.
Proof.
  split; [reflexivity|]. split; [reflexivity|]. split; [reflexivity|].
  exact (parsed_commands_append "USE x;" "SELECT 1;" eq_refl eq_refl eq_refl).
Defined.

End create_database_facts.

(* ===================================================================== *)
(** * Ingestion: what a run executes                                      *)
(* ===================================================================== *)

Module populate_database_facts.
Import populate_database.

Section Runs.
Context {DB : Type} `{Environment DB}.

(** One turn of the inner loop. *)
Lemma insert_videos_cons (gloss : option string) (wid : Z)
  (instance : Instance) (rest : list Instance) (idx : nat) (tv : Z)
  (s : State DB) :
  let stmt :=
    InsertVideo
      {| row_word_id := wid;
         row_video_id :=
           get_default (video_id instance) (default_video_id gloss idx);
         row_video_url := get_default (url instance) ""%string;
         row_duration_sec := duration instance;
         row_fps := get (fps instance);
         row_signer_id := get (signer_id instance);
         row_split := assign_split (random (draws s));
         row_downloaded := false;
         row_processed := false |} in
  insert_videos gloss wid (instance :: rest) idx tv s
  = match run (db s) stmt with
    | Some (d, r) =>
        insert_videos gloss wid rest (S idx) (tv + 1)
          {| db := d;
             log := log s ++ [{| statement := stmt; reply := r |}];
             draws := S (draws s) |}
    | None =>
        (inr Error, {| db := db s; log := log s; draws := S (draws s) |})
    end.
Proof.
  cbv zeta. cbn [insert_videos]. unfold bindM, draw, execute.
  cbn [db log draws].
  match goal with |- context [run (db s) ?st] =>
    destruct (run (db s) st) as [[d r]|] end; reflexivity.
Qed.

Lemma insert_videos_run (instances : list Instance) :
  forall (gloss : option string) (wid : Z) (idx : nat) (tv : Z)
         (s : State DB),
  exists rows,
    log (snd (insert_videos gloss wid instances idx tv s))
    = (log s ++ rows)%list
    /\ Forall (fresh_row wid) rows
    /\ match fst (insert_videos gloss wid instances idx tv s) with
       | inl tv' =>
           tv' = tv + Z.of_nat (List.length instances)
           /\ List.length rows = List.length instances
           /\ draws (snd (insert_videos gloss wid instances idx tv s))
              = (draws s + List.length instances)%nat
       | inr e =>
           e = Error /\ (List.length rows < List.length instances)%nat
       end.
Proof.
  induction instances as [|instance rest IH]; intros gloss wid idx tv s.
  - exists []. cbn. rewrite app_nil_r. repeat split; auto; lia.
  - rewrite insert_videos_cons. cbv zeta.
    match goal with |- context [run (db s) ?st] =>
      destruct (run (db s) st) as [[d r]|] eqn:Erun end.
    + match goal with
      | |- context [insert_videos gloss wid rest (S idx) (tv + 1) ?s1] =>
          remember s1 as s1' eqn:Es1
      end.
      destruct (IH gloss wid (S idx) (tv + 1) s1')
        as (rows & Hlog & Hrows & Hres).
      eexists (_ :: rows).
      split; [rewrite Hlog, Es1; cbn [log]; rewrite <- app_assoc;
              reflexivity|].
      split.
      * constructor; [|exact Hrows]. eexists. cbn [statement].
        repeat split; reflexivity.
      * destruct (fst (insert_videos gloss wid rest (S idx) (tv + 1) s1'))
          as [tv'|e].
        -- destruct Hres as (-> & Hlen & Hd). cbn [List.length].
           rewrite Hd, Es1. cbn [draws]. repeat split; lia.
        -- destruct Hres as [-> Hlen]. cbn [List.length]. split; [auto|lia].
    + exists []. cbn [fst snd log]. rewrite app_nil_r.
      repeat split; auto. cbn [List.length]. lia.
Qed.

Lemma execute_run (stmt : Statement) (s : State DB) :
  execute stmt s
  = match run (db s) stmt with
    | Some (d, r) =>
        (inl r, {| db := d;
                   log := log s ++ [{| statement := stmt; reply := r |}];
                   draws := draws s |})
    | None => (inr Error, s)
    end.
Proof. reflexivity. Qed.

Lemma insert_entries_skip (entry : Entry) (rest : list Entry)
  (tw tv sk : Z) :
  is_skipped entry = true ->
  insert_entries (entry :: rest) tw tv sk
  = insert_entries rest tw tv (sk + 1).
Proof.
  unfold is_skipped, inserted_instances. cbn [insert_entries].
  destruct (get_default (instances entry) []) as [[|i l]|];
    [reflexivity | discriminate | reflexivity].
Qed.

Lemma insert_entries_word (entry : Entry) (rest : list Entry)
  (tw tv sk : Z) (s : State DB) :
  is_skipped entry = false ->
  insert_entries (entry :: rest) tw tv sk s
  = (p <~ insert_word (get (gloss entry)) (inserted_instances entry) tw tv ;;
     insert_entries rest (fst p) (snd p) sk) s.
Proof.
  unfold is_skipped, inserted_instances. cbn [insert_entries].
  destruct (get_default (instances entry) []) as [[|i l]|];
    [discriminate | | discriminate].
  intros _. unfold insert_word, videos_and_commit, bindM, ret, raise.
  destruct (execute _ s) as [[r|e] s1]; [|reflexivity].
  destruct (Z.eqb (lastrowid r) 0).
  - destruct (execute _ s1) as [[r'|e] s2]; [|reflexivity].
    destruct (fetchone r') as [id|]; [|reflexivity].
    destruct (insert_videos _ _ _ _ _ s2) as [[tv'|e] s3]; [|reflexivity].
    destruct (Z.eqb ((tw + 1) mod 100) 0).
    + destruct (execute Commit s3) as [[c|e] s4]; reflexivity.
    + reflexivity.
  - destruct (insert_videos _ _ _ _ _ s1) as [[tv'|e] s3]; [|reflexivity].
    destruct (Z.eqb ((tw + 1) mod 100) 0).
    + destruct (execute Commit s3) as [[c|e] s4]; reflexivity.
    + reflexivity.
Qed.

Lemma count_statements_app (p : Statement -> bool) (l1 l2 : list Executed) :
  count_statements p (l1 ++ l2)
  = (count_statements p l1 + count_statements p l2)%nat.
Proof.
  unfold count_statements. rewrite filter_app, length_app. reflexivity.
Qed.

Lemma count_statements_rows (p : Statement -> bool) (b : bool) (wid : Z)
  (rows : list Executed) :
  (forall row, p (InsertVideo row) = b) ->
  Forall (fresh_row wid) rows ->
  count_statements p rows = if b then List.length rows else 0%nat.
Proof.
  intros Hp Hrows. unfold count_statements.
  induction Hrows as [|x rows (row & Hst & _) _ IH].
  - destruct b; reflexivity.
  - cbn [filter]. rewrite Hst, Hp. destruct b; cbn [List.length]; lia.
Qed.

Lemma consistent_rows (wid : Z) (rows rest : list Executed) (k : nat) :
  Forall (fresh_row wid) rows ->
  consistent (Some wid) (List.length rows + k) (rows ++ rest)
  = consistent (Some wid) k rest.
Proof.
  induction 1 as [|x rows (row & Hst & Hw & Hd & Hp) _ IH];
    [reflexivity|].
  destruct x as [st rp]. cbn [statement] in Hst. subst st.
  cbn [List.length Nat.add app consistent].
  rewrite Hw, Hd, Hp, Z.eqb_refl. cbn [negb andb]. exact IH.
Qed.

(** The end of a turn of the outer loop, once the word has its id: the
    inner loop and the commit test. *)
Lemma videos_and_commit_run (gloss : option string) (wid : Z)
  (instances : list Instance) (tw1 tv : Z) (s : State DB) :
  let c := videos_and_commit gloss wid instances tw1 tv in
  exists L,
    log (snd (c s)) = (log s ++ L)%list
    /\ count_statements is_rollback L = 0%nat
    /\ count_statements is_insert_word L = 0%nat
    /\ match fst (c s) with
       | inl (tw', tv') =>
           tw' = tw1
           /\ tv' = tv + Z.of_nat (List.length instances)
           /\ draws (snd (c s)) = (draws s + List.length instances)%nat
           /\ count_statements is_insert_video L = List.length instances
           /\ count_statements is_commit L
              = (if Z.eqb (tw1 mod 100) 0 then 1 else 0)%nat
           /\ forall rest,
                (forall w', consistent w' 0 rest = true) ->
                consistent (Some wid) (List.length instances) (L ++ rest)
                = true
       | inr e => e = Error /\ count_statements is_commit L = 0%nat
       end.
Proof.
  cbv zeta. unfold videos_and_commit, bindM.
  destruct (insert_videos_run instances gloss wid 0%nat tv s)
    as (rows & Hlog & Hrows & Hres).
  destruct (insert_videos gloss wid instances 0 tv s) as [[tv'|e] s3].
  - cbn [fst snd] in Hlog, Hres. destruct Hres as (-> & Hlen & Hd).
    destruct (Z.eqb (tw1 mod 100) 0).
    + rewrite execute_run.
      destruct (run (db s3) Commit) as [[d4 r4]|].
      * unfold ret. cbn [fst snd log draws].
        exists (rows ++ [{| statement := Commit; reply := r4 |}])%list.
        rewrite Hlog, app_assoc. split; [reflexivity|].
        rewrite !count_statements_app.
        rewrite (count_statements_rows is_rollback false wid rows),
                (count_statements_rows is_insert_word false wid rows),
                (count_statements_rows is_insert_video true wid rows),
                (count_statements_rows is_commit false wid rows)
          by (assumption || reflexivity).
        cbn. repeat split; try lia.
        intros rest Hrest. rewrite <- app_assoc.
        rewrite <- (Nat.add_0_r (List.length instances)), <- Hlen.
        rewrite consistent_rows by assumption.
        cbn. apply Hrest.
      * cbn [fst snd]. exists rows. split; [exact Hlog|].
        rewrite (count_statements_rows is_rollback false wid rows),
                (count_statements_rows is_insert_word false wid rows),
                (count_statements_rows is_commit false wid rows)
          by (assumption || reflexivity).
        repeat split; reflexivity.
    + unfold ret. cbn [fst snd]. exists rows. split; [exact Hlog|].
      rewrite (count_statements_rows is_rollback false wid rows),
              (count_statements_rows is_insert_word false wid rows),
              (count_statements_rows is_insert_video true wid rows),
              (count_statements_rows is_commit false wid rows)
        by (assumption || reflexivity).
      repeat split; try lia.
      intros rest Hrest.
      rewrite <- (Nat.add_0_r (List.length instances)), <- Hlen.
      rewrite consistent_rows by assumption. apply Hrest.
  - cbn [fst snd] in Hlog, Hres |- *. destruct Hres as [-> _].
    exists rows. split; [exact Hlog|].
    rewrite (count_statements_rows is_rollback false wid rows),
            (count_statements_rows is_insert_word false wid rows),
            (count_statements_rows is_commit false wid rows)
      by (assumption || reflexivity).
    repeat split; reflexivity.
Qed.

Lemma insert_word_cases (gloss : option string)
  (instances : list Instance) (tw tv : Z) (s : State DB) :
  let iw := InsertWord gloss (Z.of_nat (List.length instances)) in
  insert_word gloss instances tw tv s
  = match run (db s) iw with
    | None => (inr Error, s)
    | Some (d1, r1) =>
        let s1 := {| db := d1;
                     log := log s ++ [{| statement := iw; reply := r1 |}];
                     draws := draws s |} in
        if Z.eqb (lastrowid r1) 0
        then
          match run d1 (SelectWordId gloss) with
          | None => (inr Error, s1)
          | Some (d2, r2) =>
              let s2 :=
                {| db := d2;
                   log := log s1 ++ [{| statement := SelectWordId gloss;
                                        reply := r2 |}];
                   draws := draws s |} in
              match fetchone r2 with
              | None => (inr TypeError, s2)
              | Some id =>
                  videos_and_commit gloss id instances (tw + 1) tv s2
              end
          end
        else videos_and_commit gloss (lastrowid r1) instances (tw + 1) tv s1
    end.
Proof.
  cbv zeta. unfold insert_word. unfold bindM at 1. rewrite execute_run.
  destruct (run (db s) _) as [[d1 r1]|]; [|reflexivity].
  unfold bindM at 1.
  destruct (Z.eqb (lastrowid r1) 0); [|reflexivity].
  unfold bindM at 1. rewrite execute_run. cbn [db log draws].
  destruct (run d1 (SelectWordId gloss)) as [[d2 r2]|]; [|reflexivity].
  destruct (fetchone r2); reflexivity.
Qed.

Lemma insert_word_run (gloss : option string) (instances : list Instance)
  (tw tv : Z) (s : State DB) :
  exists L,
    log (snd (insert_word gloss instances tw tv s)) = (log s ++ L)%list
    /\ count_statements is_rollback L = 0%nat
    /\ match fst (insert_word gloss instances tw tv s) with
       | inl (tw', tv') =>
           tw' = tw + 1
           /\ tv' = tv + Z.of_nat (List.length instances)
           /\ draws (snd (insert_word gloss instances tw tv s))
              = (draws s + List.length instances)%nat
           /\ count_statements is_insert_word L = 1%nat
           /\ count_statements is_insert_video L = List.length instances
           /\ count_statements is_commit L
              = (if Z.eqb ((tw + 1) mod 100) 0 then 1 else 0)%nat
           /\ forall w rest,
                (forall w', consistent w' 0 rest = true) ->
                consistent w 0 (L ++ rest) = true
       | inr Error =>
           (count_statements is_insert_word L <= 1)%nat
           /\ count_statements is_commit L = 0%nat
       | inr TypeError =>
           count_statements is_insert_word L = 1%nat
           /\ count_statements is_commit L = 0%nat
           /\ exists L0 g r,
                L = (L0 ++ [{| statement := SelectWordId g; reply := r |}])%list
                /\ fetchone r = None
       end.
Proof.
  rewrite insert_word_cases. cbv zeta.
  destruct (run (db s) _) as [[d1 r1]|].
  2:{ exists []. cbn. rewrite app_nil_r. repeat split; lia. }
  set (iw := {| statement := InsertWord gloss (Z.of_nat (List.length instances));
                reply := r1 |}).
  destruct (Z.eqb (lastrowid r1) 0) eqn:E0.
  - cbn [log].
    destruct (run d1 (SelectWordId gloss)) as [[d2 r2]|].
    2:{ exists [iw]. cbn. repeat split; lia. }
    set (sel := {| statement := SelectWordId gloss; reply := r2 |}).
    destruct (fetchone r2) as [id|] eqn:Ef.
    2:{ exists [iw; sel]. cbn [fst snd log]. rewrite <- app_assoc.
        split; [reflexivity|]. split; [reflexivity|].
        split; [reflexivity|]. split; [reflexivity|].
        exists [iw], gloss, r2. split; [reflexivity | exact Ef]. }
    match goal with |- context [videos_and_commit gloss id instances (tw + 1) tv ?s2] =>
      destruct (videos_and_commit_run gloss id instances (tw + 1) tv s2)
        as (L & Hlog & Hrb & Hw & Hres);
      cbv zeta in Hlog, Hres; cbn [log draws] in Hlog, Hres;
      destruct (videos_and_commit gloss id instances (tw + 1) tv s2)
        as [[[tw' tv']|e] s3]
    end; cbn [fst snd] in *.
    + exists (iw :: sel :: L). rewrite Hlog, <- !app_assoc.
      split; [reflexivity|].
      change (iw :: sel :: L) with ([iw; sel] ++ L)%list.
      rewrite !count_statements_app, Hrb, Hw.
      destruct Hres as (-> & -> & Hd & Hv & Hc & Hcons).
      rewrite Hv, Hc. split; [reflexivity|].
      repeat split; try reflexivity; try exact Hd.
      intros w rest Hrest. cbn [app consistent statement reply iw sel].
      rewrite E0, Ef, Nat2Z.id. cbn [Nat.eqb andb].
      destruct w; apply Hcons; exact Hrest.
    + exists (iw :: sel :: L). rewrite Hlog, <- !app_assoc.
      split; [reflexivity|].
      change (iw :: sel :: L) with ([iw; sel] ++ L)%list.
      rewrite !count_statements_app, Hrb, Hw.
      destruct Hres as [-> Hc]. rewrite Hc.
      repeat split; cbn; lia.
  - match goal with |- context [videos_and_commit gloss ?id instances (tw + 1) tv ?s1] =>
      destruct (videos_and_commit_run gloss id instances (tw + 1) tv s1)
        as (L & Hlog & Hrb & Hw & Hres);
      cbv zeta in Hlog, Hres; cbn [log draws] in Hlog, Hres;
      destruct (videos_and_commit gloss id instances (tw + 1) tv s1)
        as [[[tw' tv']|e] s3]
    end; cbn [fst snd] in *.
    + exists (iw :: L). rewrite Hlog, <- !app_assoc.
      split; [reflexivity|].
      change (iw :: L) with ([iw] ++ L)%list.
      rewrite !count_statements_app, Hrb, Hw.
      destruct Hres as (-> & -> & Hd & Hv & Hc & Hcons).
      rewrite Hv, Hc. split; [reflexivity|].
      repeat split; try reflexivity; try exact Hd.
      intros w rest Hrest. cbn [app consistent statement reply iw].
      rewrite E0, Nat2Z.id. cbn [Nat.eqb andb].
      apply Hcons; exact Hrest.
    + exists (iw :: L). rewrite Hlog, <- !app_assoc.
      split; [reflexivity|].
      change (iw :: L) with ([iw] ++ L)%list.
      rewrite !count_statements_app, Hrb, Hw.
      destruct Hres as [-> Hc]. rewrite Hc.
      repeat split; cbn; lia.
Qed.

Lemma div_100_step (t : Z) :
  (t + 1) / 100
  = t / 100 + Z.of_nat (if Z.eqb ((t + 1) mod 100) 0 then 1 else 0)%nat.
Proof.
  pose proof (Z.div_mod t 100 ltac:(lia)) as E0.
  pose proof (Z.div_mod (t + 1) 100 ltac:(lia)) as E1.
  pose proof (Z.mod_pos_bound t 100 ltac:(lia)) as B0.
  pose proof (Z.mod_pos_bound (t + 1) 100 ltac:(lia)) as B1.
  destruct (Z.eqb_spec ((t + 1) mod 100) 0) as [E|E]; cbn [Z.of_nat]; lia.
Qed.

Lemma div_100_bounds (t : Z) : 0 <= (t + 1) / 100 - t / 100 <= 1.
Proof.
  rewrite div_100_step. destruct (Z.eqb ((t + 1) mod 100) 0); cbn; lia.
Qed.

(** The outer loop: what it executes and returns, however it ends. *)
Lemma insert_entries_run (data : list Entry) :
  forall (tw tv sk : Z) (s : State DB),
  exists L,
    log (snd (insert_entries data tw tv sk s)) = (log s ++ L)%list
    /\ count_statements is_rollback L = 0%nat
    /\ tw / 100 + Z.of_nat (count_statements is_commit L)
       <= (tw + Z.of_nat (count_statements is_insert_word L)) / 100
       <= tw / 100 + Z.of_nat (count_statements is_commit L) + 1
    /\ match fst (insert_entries data tw tv sk s) with
       | inl (tw', tv', sk') =>
           tw' = tw + Z.of_nat
                        (List.length
                           (filter (fun e => negb (is_skipped e)) data))
           /\ sk' = sk + Z.of_nat (List.length (filter is_skipped data))
           /\ tv' = tv + Z.of_nat
                           (List.length (flat_map inserted_instances data))
           /\ draws (snd (insert_entries data tw tv sk s))
              = (draws s
                 + List.length (flat_map inserted_instances data))%nat
           /\ count_statements is_insert_word L
              = List.length (filter (fun e => negb (is_skipped e)) data)
           /\ count_statements is_insert_video L
              = List.length (flat_map inserted_instances data)
           /\ Z.of_nat (count_statements is_commit L) = tw' / 100 - tw / 100
           /\ forall w rest,
                (forall w', consistent w' 0 rest = true) ->
                consistent w 0 (L ++ rest) = true
       | inr Error => True
       | inr TypeError =>
           exists L0 g r,
             L = (L0 ++ [{| statement := SelectWordId g; reply := r |}])%list
             /\ fetchone r = None
       end.
Proof.
  induction data as [|entry rest IH]; intros tw tv sk s.
  - exists []. cbn. rewrite app_nil_r, !Z.add_0_r, Z.sub_diag.
    repeat split; auto; try lia.
  - destruct (is_skipped entry) eqn:Esk.
    + rewrite insert_entries_skip by exact Esk.
      destruct (IH tw tv (sk + 1) s) as (L & Hlog & Hrb & Hdiv & Hres).
      exists L. split; [exact Hlog|]. split; [exact Hrb|].
      split; [exact Hdiv|].
      assert (Hin : inserted_instances entry = []).
      { unfold is_skipped in Esk. destruct (inserted_instances entry);
          [reflexivity | discriminate]. }
      cbn [filter flat_map]. rewrite Esk, Hin. cbn [negb app].
      destruct (fst (insert_entries rest tw tv (sk + 1) s))
        as [[[tw' tv'] sk']|[|]]; [|exact Hres|exact Hres].
      destruct Hres as (E1 & E2 & E3 & E4 & E5 & E6 & E7 & E8).
      cbn [List.length]. repeat split; try assumption. lia.
    + rewrite insert_entries_word by exact Esk. unfold bindM.
      destruct (insert_word_run (get (gloss entry))
                  (inserted_instances entry) tw tv s)
        as (L1 & Hlog1 & Hrb1 & Hres1).
      pose proof (div_100_step tw) as Hstep.
      pose proof (div_100_bounds tw) as Hb.
      cbn [filter flat_map]. rewrite Esk. cbn [negb].
      destruct (insert_word (get (gloss entry)) (inserted_instances entry)
                  tw tv s) as [[[tw1 tv1]|[|]] s1]; cbn [fst snd] in *.
      * destruct Hres1 as (-> & -> & Hd1 & Hw1 & Hv1 & Hc1 & Hcons1).
        destruct (IH (tw + 1) (tv + Z.of_nat (List.length
                                              (inserted_instances entry)))
                     sk s1) as (L2 & Hlog2 & Hrb2 & Hdiv2 & Hres2).
        exists (L1 ++ L2)%list.
        rewrite Hlog2, Hlog1, <- app_assoc. split; [reflexivity|].
        rewrite !count_statements_app, Hrb1, Hrb2, Hw1, Hc1.
        split; [reflexivity|].
        set (c1 := (if Z.eqb ((tw + 1) mod 100) 0 then 1 else 0)%nat) in *.
        set (W2 := count_statements is_insert_word L2) in *.
        set (C2 := count_statements is_commit L2) in *.
        assert (EW : tw + Z.of_nat (1 + W2) = tw + 1 + Z.of_nat W2) by lia.
        rewrite EW. split; [lia|].
        destruct (fst (insert_entries rest (tw + 1) _ sk s1))
          as [[[tw' tv'] sk']|[|]].
        -- destruct Hres2 as (E1 & E2 & E3 & E4 & E5 & E6 & E7 & E8).
           rewrite length_app, Hv1, E4, E6, Hd1. cbn [List.length].
           fold W2 in E5. rewrite E5.
           split; [lia|]. split; [lia|]. split; [lia|]. split; [lia|].
           split; [reflexivity|]. split; [reflexivity|].
           split; [lia|].
           intros w rest' Hrest. rewrite <- app_assoc.
           apply Hcons1. intro w'. apply E8. exact Hrest.
        -- exact I.
        -- destruct Hres2 as (L0 & g & r & -> & Hf).
           exists (L1 ++ L0)%list, g, r. rewrite app_assoc.
           split; [reflexivity | exact Hf].
      * exists L1. split; [exact Hlog1|]. split; [exact Hrb1|].
        destruct Hres1 as [Hw1 Hc1]. rewrite Hc1.
        split; [|exact I].
        assert (Hcase : count_statements is_insert_word L1 = 0%nat
                        \/ count_statements is_insert_word L1 = 1%nat)
          by lia.
        destruct Hcase as [-> | ->];
          change (Z.of_nat 0) with 0; change (Z.of_nat 1) with 1;
          rewrite ?Z.add_0_r; lia.
      * exists L1. split; [exact Hlog1|]. split; [exact Hrb1|].
        destruct Hres1 as (Hw1 & Hc1 & Hend). rewrite Hw1, Hc1.
        change (Z.of_nat 0) with 0; change (Z.of_nat 1) with 1.
        split; [rewrite ?Z.add_0_r; lia | exact Hend].
Qed.

(** The whole method, however it ends. *)
Lemma insert_words_and_videos_run (data : list Entry) (s : State DB) :
  exists L,
    count_statements is_rollback L = 0%nat
    /\ match insert_words_and_videos data s with
       | Finished tw sk tv s' =>
           exists r,
             log s' = (log s ++ L ++ [{| statement := Commit; reply := r |}])%list
             /\ tw = Z.of_nat
                       (List.length
                          (filter (fun e => negb (is_skipped e)) data))
             /\ sk = Z.of_nat (List.length (filter is_skipped data))
             /\ tv = Z.of_nat
                       (List.length (flat_map inserted_instances data))
             /\ draws s'
                = (draws s
                   + List.length (flat_map inserted_instances data))%nat
             /\ count_statements is_insert_word L
                = List.length (filter (fun e => negb (is_skipped e)) data)
             /\ count_statements is_insert_video L
                = List.length (flat_map inserted_instances data)
             /\ Z.of_nat (count_statements is_commit L) = tw / 100
             /\ consistent None 0
                  (L ++ [{| statement := Commit; reply := r |}]) = true
       | RolledBack s' =>
           exists r,
             log s' = (log s ++ L ++ [{| statement := Rollback; reply := r |}])%list
             /\ Z.of_nat (count_statements is_commit L)
                <= Z.of_nat (count_statements is_insert_word L) / 100
                <= Z.of_nat (count_statements is_commit L) + 1
       | Uncaught TypeError s' =>
           exists L0 g r,
             log s' = (log s ++ L)%list
             /\ L = (L0 ++ [{| statement := SelectWordId g; reply := r |}])%list
             /\ fetchone r = None
       | Uncaught Error s' =>
           log s' = (log s ++ L)%list
           /\ run (db s') Rollback = None
           /\ Z.of_nat (count_statements is_commit L)
              <= Z.of_nat (count_statements is_insert_word L) / 100
              <= Z.of_nat (count_statements is_commit L) + 1
       end.
Proof.
  unfold insert_words_and_videos, try_block, bindM.
  destruct (insert_entries_run data 0 0 0 s)
    as (L & Hlog & Hrb & Hdiv & Hres).
  change (0 / 100) with 0 in Hdiv. rewrite !Z.add_0_l in Hdiv.
  exists L. split; [exact Hrb|].
  destruct (insert_entries data 0 0 0 s) as [[[[tw tv] sk]|[|]] s1];
    cbn [fst snd] in *.
  - destruct Hres as (E1 & E2 & E3 & E4 & E5 & E6 & E7 & E8).
    rewrite execute_run.
    destruct (run (db s1) Commit) as [[d r]|].
    + unfold ret. exists r. cbn [log draws].
      rewrite Hlog, <- app_assoc.
      change (0 / 100) with 0 in E7. rewrite Z.sub_0_r in E7.
      repeat split; try assumption; try lia.
      apply E8. intro w'. reflexivity.
    + rewrite execute_run.
      destruct (run (db s1) Rollback) as [[d r]|] eqn:Erb.
      * exists r. cbn [log]. rewrite Hlog, <- app_assoc.
        split; [reflexivity | exact Hdiv].
      * split; [exact Hlog|]. split; [exact Erb | exact Hdiv].
  - rewrite execute_run.
    destruct (run (db s1) Rollback) as [[d r]|] eqn:Erb.
    + exists r. cbn [log]. rewrite Hlog, <- app_assoc.
      split; [reflexivity | exact Hdiv].
    + split; [exact Hlog|]. split; [exact Erb | exact Hdiv].
  - destruct Hres as (L0 & g & r & EL & Hf).
    exists L0, g, r. repeat split; assumption.
Qed.

Lemma ingestion_summary_facts (data : list Entry) (s s' : State DB)
  (tw sk tv : Z) :
  insert_words_and_videos data s = Finished tw sk tv s' ->
  tv = Z.of_nat (List.length (flat_map inserted_instances data))
  /\ tw = Z.of_nat
            (List.length (filter (fun e => negb (is_skipped e)) data)).
Proof.
  intro Hout.
  destruct (insert_words_and_videos_run data s) as (L & _ & Hres).
  rewrite Hout in Hres.
  destruct Hres as (r & _ & E1 & E2 & E3 & _). split; assumption.
Qed.

(** X15: when the method finishes, the summary it prints is right.  The
    words inserted are the entries that have instances, the words skipped
    are the entries whose instances are absent, null or empty, the two
    together are all the entries, the videos inserted are all the
    instances of the words inserted, and [random.random] was drawn once
    per video. *)
Theorem ingestion_summary (data : list Entry) (s s' : State DB)
  (tw sk tv : Z) :
  insert_words_and_videos data s = Finished tw sk tv s' ->
  tw = Z.of_nat (List.length (filter (fun e => negb (is_skipped e)) data))
  /\ sk = Z.of_nat (List.length (filter is_skipped data))
  /\ tw + sk = Z.of_nat (List.length data)
  /\ tv = Z.of_nat (List.length (flat_map inserted_instances data))
  /\ draws s' = (draws s + Z.to_nat tv)%nat.
Proof.
  intro Hout.
  destruct (insert_words_and_videos_run data s) as (L & _ & Hres).
  rewrite Hout in Hres.
  destruct Hres as (r & _ & E1 & E2 & E3 & E4 & _).
  pose proof (filter_length is_skipped data) as Hlen.
  subst tw sk tv. rewrite Nat2Z.id.
  repeat split; try assumption. lia.
Qed.

(** X16: the statements of a run that finishes.  On top of the log it
    started with, the method has executed one INSERT per word inserted,
    one INSERT per video, a commit after every hundredth word and one
    final commit, and no rollback. *)
Theorem ingestion_statements (data : list Entry) (s s' : State DB)
  (tw sk tv : Z) :
  insert_words_and_videos data s = Finished tw sk tv s' ->
  exists L,
    log s' = (log s ++ L)%list
    /\ Z.of_nat (count_statements is_insert_word L) = tw
    /\ Z.of_nat (count_statements is_insert_video L) = tv
    /\ Z.of_nat (count_statements is_commit L) = tw / 100 + 1
    /\ count_statements is_rollback L = 0%nat
    /\ exists L0 r, L = (L0 ++ [{| statement := Commit; reply := r |}])%list.
Proof.
  intro Hout.
  destruct (insert_words_and_videos_run data s) as (L & Hrb & Hres).
  rewrite Hout in Hres.
  destruct Hres as (r & Hlog & E1 & E2 & E3 & E4 & E5 & E6 & E7 & _).
  exists (L ++ [{| statement := Commit; reply := r |}])%list.
  split; [exact Hlog|].
  rewrite !count_statements_app, Hrb.
  unfold count_statements at 2 4 6 7. cbn [filter statement is_insert_word
    is_insert_video is_commit is_rollback List.length].
  rewrite !Nat2Z.inj_add, E5, E6, E7, <- E1, <- E3. cbn [Z.of_nat].
  repeat split; try lia. exists L, r. reflexivity.
Qed.

(** X17: the rows of a run that finishes fit together.  In the statements
    the method has executed, every INSERT of a word is followed by as many
    video rows as the [sample_count] it wrote for the word, each carrying
    the id the server reported for that word ([lastrowid], or the row of
    the SELECT when [lastrowid] is 0) and marked neither downloaded nor
    processed; commits fall between words only. *)
Theorem ingestion_log_consistent (data : list Entry) (s s' : State DB)
  (tw sk tv : Z) :
  insert_words_and_videos data s = Finished tw sk tv s' ->
  exists L,
    log s' = (log s ++ L)%list /\ consistent None 0 L = true.
Proof.
  intro Hout.
  destruct (insert_words_and_videos_run data s) as (L & Hrb & Hres).
  rewrite Hout in Hres.
  destruct Hres as (r & Hlog & _ & _ & _ & _ & _ & _ & _ & Hc).
  eexists. split; [exact Hlog | exact Hc].
Qed.

(** The statements a run has executed and SELECTs among them: a SELECT
    that found no row is the last statement of a run that ends with
    [TypeError], right after the INSERT of its word, and occurs nowhere
    else. *)
Lemma rows_found (wid : Z) (rows : list Executed) :
  Forall (fresh_row wid) rows -> Forall found rows.
Proof.
  apply Forall_impl. intros x (row & Hst & _) g Hg.
  rewrite Hst in Hg. discriminate Hg.
Qed.

Lemma found_statement (x : Executed) :
  (forall g, statement x <> SelectWordId g) -> found x.
Proof. intros Hne g Hg. destruct (Hne g Hg). Qed.

Lemma videos_and_commit_selects (gloss : option string) (wid : Z)
  (instances : list Instance) (tw1 tv : Z) (s : State DB) :
  exists L,
    log (snd (videos_and_commit gloss wid instances tw1 tv s))
    = (log s ++ L)%list
    /\ Forall found L
    /\ fst (videos_and_commit gloss wid instances tw1 tv s)
       <> inr TypeError.
Proof.
  unfold videos_and_commit, bindM.
  destruct (insert_videos_run instances gloss wid 0%nat tv s)
    as (rows & Hlog & Hrows & Hres).
  apply rows_found in Hrows.
  destruct (insert_videos gloss wid instances 0 tv s) as [[tv'|e] s3];
    cbn [fst snd] in Hlog, Hres.
  - destruct (Z.eqb (tw1 mod 100) 0).
    + rewrite execute_run.
      destruct (run (db s3) Commit) as [[d4 r4]|]; unfold ret;
        cbn [fst snd log].
      * exists (rows ++ [{| statement := Commit; reply := r4 |}])%list.
        rewrite Hlog, app_assoc. split; [reflexivity|].
        split; [|discriminate].
        apply Forall_app. split; [exact Hrows|].
        constructor; [|constructor].
        apply found_statement. intros g Hg. discriminate Hg.
      * exists rows. repeat split; [exact Hlog | exact Hrows | discriminate].
    + unfold ret. cbn [fst snd]. exists rows.
      repeat split; [exact Hlog | exact Hrows | discriminate].
  - destruct Hres as [-> _]. cbn [fst snd]. exists rows.
    repeat split; [exact Hlog | exact Hrows | discriminate].
Qed.

Lemma insert_word_selects (gloss : option string)
  (instances : list Instance) (tw tv : Z) (s : State DB) :
  exists L,
    log (snd (insert_word gloss instances tw tv s)) = (log s ++ L)%list
    /\ match fst (insert_word gloss instances tw tv s) with
       | inr TypeError =>
           exists iw sel n,
             L = [iw; sel]
             /\ statement iw = InsertWord gloss n
             /\ lastrowid (reply iw) = 0
             /\ statement sel = SelectWordId gloss
             /\ fetchone (reply sel) = None
       | _ => Forall found L
       end.
Proof.
  rewrite insert_word_cases. cbv zeta.
  destruct (run (db s) _) as [[d1 r1]|].
  2:{ exists []. cbn [fst snd]. rewrite app_nil_r.
      split; [reflexivity | constructor]. }
  set (iw := {| statement :=
                  InsertWord gloss (Z.of_nat (List.length instances));
                reply := r1 |}).
  assert (Hiw : found iw).
  { apply found_statement. intros g Hg. discriminate Hg. }
  destruct (Z.eqb_spec (lastrowid r1) 0) as [E0|E0].
  - cbn [log].
    destruct (run d1 (SelectWordId gloss)) as [[d2 r2]|].
    2:{ exists [iw]. cbn [fst snd log].
        split; [reflexivity | constructor; [exact Hiw | constructor]]. }
    set (sel := {| statement := SelectWordId gloss; reply := r2 |}).
    destruct (fetchone r2) as [id|] eqn:Ef.
    2:{ exists [iw; sel]. cbn [fst snd log]. rewrite <- app_assoc.
        split; [reflexivity|].
        exists iw, sel, (Z.of_nat (List.length instances)).
        repeat split; assumption. }
    assert (Hsel : found sel).
    { intros g _. cbn [sel reply]. rewrite Ef. discriminate. }
    match goal with
    | |- context [videos_and_commit gloss id instances (tw + 1) tv ?s2] =>
        destruct (videos_and_commit_selects gloss id instances (tw + 1) tv
                    s2) as (L & Hlog & HL & Hne);
        cbn [log] in Hlog;
        destruct (videos_and_commit gloss id instances (tw + 1) tv s2)
          as [[p|e] s3]
    end; cbn [fst snd] in *.
    + exists (iw :: sel :: L). rewrite Hlog, <- !app_assoc.
      split; [reflexivity|]. constructor; [exact Hiw|].
      constructor; [exact Hsel | exact HL].
    + exists (iw :: sel :: L). rewrite Hlog, <- !app_assoc.
      split; [reflexivity|].
      destruct e; [|contradiction Hne; reflexivity].
      constructor; [exact Hiw|]. constructor; [exact Hsel | exact HL].
  - match goal with
    | |- context [videos_and_commit gloss ?id instances (tw + 1) tv ?s1] =>
        destruct (videos_and_commit_selects gloss id instances (tw + 1) tv
                    s1) as (L & Hlog & HL & Hne);
        cbn [log] in Hlog;
        destruct (videos_and_commit gloss id instances (tw + 1) tv s1)
          as [[p|e] s3]
    end; cbn [fst snd] in *.
    + exists (iw :: L). rewrite Hlog, <- !app_assoc.
      split; [reflexivity|]. constructor; [exact Hiw | exact HL].
    + exists (iw :: L). rewrite Hlog, <- !app_assoc.
      split; [reflexivity|].
      destruct e; [|contradiction Hne; reflexivity].
      constructor; [exact Hiw | exact HL].
Qed.

Lemma insert_entries_selects (data : list Entry) :
  forall (tw tv sk : Z) (s : State DB),
  exists L,
    log (snd (insert_entries data tw tv sk s)) = (log s ++ L)%list
    /\ match fst (insert_entries data tw tv sk s) with
       | inr TypeError =>
           exists L0 iw sel g n,
             L = (L0 ++ [iw; sel])%list
             /\ Forall found L0
             /\ statement iw = InsertWord g n
             /\ lastrowid (reply iw) = 0
             /\ statement sel = SelectWordId g
             /\ fetchone (reply sel) = None
       | _ => Forall found L
       end.
Proof.
  induction data as [|entry rest IH]; intros tw tv sk s.
  - exists []. cbn. rewrite app_nil_r. split; [reflexivity | constructor].
  - destruct (is_skipped entry) eqn:Esk.
    + rewrite insert_entries_skip by exact Esk. apply IH.
    + rewrite insert_entries_word by exact Esk. unfold bindM.
      destruct (insert_word_selects (get (gloss entry))
                  (inserted_instances entry) tw tv s)
        as (L1 & Hlog1 & Hres1).
      destruct (insert_word (get (gloss entry)) (inserted_instances entry)
                  tw tv s) as [[p|[|]] s1]; cbn [fst snd] in *.
      * destruct (IH (fst p) (snd p) sk s1) as (L2 & Hlog2 & Hres2).
        exists (L1 ++ L2)%list. rewrite Hlog2, Hlog1, <- app_assoc.
        split; [reflexivity|].
        destruct (fst (insert_entries rest (fst p) (snd p) sk s1))
          as [c|[|]].
        -- apply Forall_app. split; assumption.
        -- apply Forall_app. split; assumption.
        -- destruct Hres2
             as (L0 & iw & sel & g & n & -> & H0 & H1 & H2 & H3 & H4).
           exists (L1 ++ L0)%list, iw, sel, g, n. rewrite app_assoc.
           repeat split; try assumption.
           apply Forall_app. split; assumption.
      * exists L1. split; [exact Hlog1 | exact Hres1].
      * exists L1. split; [exact Hlog1|].
        destruct Hres1 as (iw & sel & n & -> & H1 & H2 & H3 & H4).
        exists [], iw, sel, (get (gloss entry)), n.
        repeat split; try assumption. constructor.
Qed.

Lemma ingestion_selects (data : list Entry) (s : State DB) :
  exists L,
    log (final_state (insert_words_and_videos data s)) = (log s ++ L)%list
    /\ match insert_words_and_videos data s with
       | Uncaught TypeError _ =>
           exists L0 iw sel g n,
             L = (L0 ++ [iw; sel])%list
             /\ Forall found L0
             /\ statement iw = InsertWord g n
             /\ lastrowid (reply iw) = 0
             /\ statement sel = SelectWordId g
             /\ fetchone (reply sel) = None
       | _ => Forall found L
       end.
Proof.
  unfold insert_words_and_videos, try_block, bindM.
  destruct (insert_entries_selects data 0 0 0 s) as (L & Hlog & Hres).
  assert (Hadd : Forall found L -> forall st r,
            (forall g, st <> SelectWordId g) ->
            Forall found (L ++ [{| statement := st; reply := r |}])).
  { intros HL st r Hne. apply Forall_app. split; [exact HL|].
    constructor; [|constructor]. apply found_statement. exact Hne. }
  destruct (insert_entries data 0 0 0 s) as [[[[tw tv] sk]|[|]] s1];
    cbn [fst snd] in *.
  - rewrite execute_run.
    destruct (run (db s1) Commit) as [[d r]|].
    + unfold ret. cbn [final_state log].
      exists (L ++ [{| statement := Commit; reply := r |}])%list.
      rewrite Hlog, app_assoc. split; [reflexivity|].
      apply Hadd; [exact Hres | discriminate].
    + rewrite execute_run.
      destruct (run (db s1) Rollback) as [[d r]|]; cbn [final_state log].
      * exists (L ++ [{| statement := Rollback; reply := r |}])%list.
        rewrite Hlog, app_assoc. split; [reflexivity|].
        apply Hadd; [exact Hres | discriminate].
      * exists L. split; [exact Hlog | exact Hres].
  - rewrite execute_run.
    destruct (run (db s1) Rollback) as [[d r]|]; cbn [final_state log].
    + exists (L ++ [{| statement := Rollback; reply := r |}])%list.
      rewrite Hlog, app_assoc. split; [reflexivity|].
      apply Hadd; [exact Hres | discriminate].
    + exists L. split; [exact Hlog | exact Hres].
  - cbn [final_state]. exists L. split; [exact Hlog | exact Hres].
Qed.

Lemma last_unfound {A : Type} (P : A -> Prop) (l : list A) :
  forall (l1 l2 : list A) (x y : A),
  Forall P l -> ~ P x ->
  (l1 ++ x :: l2 = l ++ [y])%list ->
  l1 = l /\ x = y /\ l2 = [].
Proof.
  induction l as [|a l IH]; intros l1 l2 x y Hl Hx E.
  - destruct l1 as [|b l1].
    + cbn in E. injection E as -> ->. repeat split.
    + cbn in E. injection E as _ E. destruct l1; discriminate E.
  - destruct l1 as [|b l1].
    + cbn in E. injection E as -> _.
      destruct (Hx (Forall_inv Hl)).
    + cbn in E. injection E as -> E.
      destruct (IH l1 l2 x y (Forall_inv_tail Hl) Hx E) as (-> & -> & ->).
      repeat split.
Qed.

(** X18: when a statement or the final commit of the [try] block raises
    the connector's [Error], the method executes one rollback, as its
    last statement, and returns, provided the rollback goes through; an
    [Error] of the rollback itself leaves the method.  Either way the
    commits that went through before stay: of the words inserted before
    the failure, all but the last incomplete hundred, or the last full
    hundred when its commit is what failed, were committed and are not
    undone. *)
Theorem ingestion_failure_rolls_back (data : list Entry)
  (s s1 : State DB) :
  try_block data s = (inr Error, s1) ->
  match run (db s1) Rollback with
  | Some (d, r) =>
      insert_words_and_videos data s
      = RolledBack
          {| db := d;
             log := log s1 ++ [{| statement := Rollback; reply := r |}];
             draws := draws s1 |}
  | None => insert_words_and_videos data s = Uncaught Error s1
  end
  /\ exists L,
       log s1 = (log s ++ L)%list
       /\ count_statements is_rollback L = 0%nat
       /\ Z.of_nat (count_statements is_commit L)
          <= Z.of_nat (count_statements is_insert_word L) / 100
          <= Z.of_nat (count_statements is_commit L) + 1.
Proof.
  intro Htry.
  assert (Hout : insert_words_and_videos data s
                 = match run (db s1) Rollback with
                   | Some (d, r) =>
                       RolledBack
                         {| db := d;
                            log := log s1
                                   ++ [{| statement := Rollback;
                                          reply := r |}];
                            draws := draws s1 |}
                   | None => Uncaught Error s1
                   end).
  { unfold insert_words_and_videos. rewrite Htry, execute_run.
    destruct (run (db s1) Rollback) as [[d r]|]; reflexivity. }
  destruct (insert_words_and_videos_run data s) as (L & Hrb & Hres).
  rewrite Hout in Hres.
  destruct (run (db s1) Rollback) as [[d r]|].
  - split; [exact Hout|]. destruct Hres as (r' & Hlog & Hdiv).
    cbn [log] in Hlog. rewrite app_assoc in Hlog.
    apply app_inj_tail in Hlog. destruct Hlog as [Hlog _].
    exists L. repeat split; try assumption; apply Hdiv.
  - split; [exact Hout|]. destruct Hres as (Hlog & _ & Hdiv).
    exists L. repeat split; try assumption; apply Hdiv.
Qed.

(** X19: the exception the method does not catch.  As soon as a SELECT
    of a word's id finds no row, [fetchone()[0]] raises [TypeError],
    which is not a connector [Error]: the method leaves with that
    exception, the SELECT being the last statement executed, right after
    the INSERT of the word, for which the server had reported
    [lastrowid] 0; there is neither rollback nor final commit. *)
Theorem ingestion_type_error (data : list Entry) (s : State DB)
  (L1 L2 : list Executed) (x : Executed) (g : option string) :
  log (final_state (insert_words_and_videos data s))
  = (log s ++ L1 ++ x :: L2)%list ->
  statement x = SelectWordId g ->
  fetchone (reply x) = None ->
  insert_words_and_videos data s
  = Uncaught TypeError (final_state (insert_words_and_videos data s))
  /\ L2 = []
  /\ count_statements is_rollback L1 = 0%nat
  /\ exists L0 iw n,
       L1 = (L0 ++ [iw])%list
       /\ statement iw = InsertWord g n
       /\ lastrowid (reply iw) = 0.
Proof.
  intros Hlog Hx Hf.
  assert (Hnot : ~ found x).
  { intro Hfound. exact (Hfound g Hx Hf). }
  destruct (ingestion_selects data s) as (L & HL & Hres).
  rewrite HL in Hlog. apply app_inv_head in Hlog.
  destruct (insert_words_and_videos_run data s) as (L' & Hrb & Hres').
  destruct (insert_words_and_videos data s) as [tw sk tv s'|s'|[|] s'];
    cbn [final_state] in *.
  - exfalso. apply Hnot. rewrite Hlog in Hres.
    apply Forall_app in Hres. exact (Forall_inv (proj2 Hres)).
  - exfalso. apply Hnot. rewrite Hlog in Hres.
    apply Forall_app in Hres. exact (Forall_inv (proj2 Hres)).
  - exfalso. apply Hnot. rewrite Hlog in Hres.
    apply Forall_app in Hres. exact (Forall_inv (proj2 Hres)).
  - destruct Hres as (L0 & iw & sel & g' & n & EL & H0 & Hiw & Hid & Hsel
                      & _).
    destruct Hres' as (L0' & g'' & r'' & Hlog' & EL' & _).
    rewrite HL in Hlog'. apply app_inv_head in Hlog'. subst L'.
    rewrite Hlog in EL.
    change (L0 ++ [iw; sel])%list with (L0 ++ [iw] ++ [sel])%list in EL.
    rewrite app_assoc in EL.
    assert (HP : Forall found (L0 ++ [iw])).
    { apply Forall_app. split; [exact H0|].
      constructor; [|constructor]. apply found_statement.
      intros g0 Hg0. rewrite Hiw in Hg0. discriminate Hg0. }
    destruct (last_unfound found _ _ _ _ _ HP Hnot EL) as (-> & -> & ->).
    rewrite Hsel in Hx. injection Hx as ->.
    split; [reflexivity|]. split; [reflexivity|].
    split.
    + rewrite Hlog in Hrb. rewrite count_statements_app in Hrb. lia.
    + exists L0, iw, n. repeat split; assumption.
Qed.

Section Reliable.
Hypothesis always_executes : forall d st, run d st <> None.
Hypothesis words_get_ids :
  forall d g n d1 r1 d2 r2,
    run d (InsertWord g n) = Some (d1, r1) -> lastrowid r1 = 0 ->
    run d1 (SelectWordId g) = Some (d2, r2) -> fetchone r2 <> None.

Lemma execute_ok (stmt : Statement) (s : State DB) :
  exists r s', execute stmt s = (inl r, s').
Proof.
  rewrite execute_run. pose proof (always_executes (db s) stmt) as Hne.
  destruct (run (db s) stmt) as [[d r]|]; [eauto | contradiction].
Qed.

Lemma insert_videos_ok (instances : list Instance) :
  forall gloss wid idx tv (s : State DB),
  exists tv' s', insert_videos gloss wid instances idx tv s = (inl tv', s').
Proof.
  induction instances as [|instance rest IH]; intros gloss wid idx tv s.
  - cbn. unfold ret. eauto.
  - rewrite insert_videos_cons. cbv zeta.
    match goal with |- context [run (db s) ?st] =>
      pose proof (always_executes (db s) st) as Hne;
      destruct (run (db s) st) as [[d r]|]; [apply IH | contradiction]
    end.
Qed.

Lemma videos_and_commit_ok gloss wid instances tw1 tv (s : State DB) :
  exists p s', videos_and_commit gloss wid instances tw1 tv s = (inl p, s').
Proof.
  unfold videos_and_commit, bindM.
  destruct (insert_videos_ok instances gloss wid 0%nat tv s)
    as (tv' & s1 & ->).
  destruct (Z.eqb (tw1 mod 100) 0).
  - destruct (execute_ok Commit s1) as (r & s2 & ->). unfold ret. eauto.
  - unfold ret. eauto.
Qed.

Lemma insert_word_ok gloss instances tw tv (s : State DB) :
  exists p s', insert_word gloss instances tw tv s = (inl p, s').
Proof.
  rewrite insert_word_cases. cbv zeta.
  match goal with |- context [run (db s) ?st] =>
    pose proof (always_executes (db s) st) as Hne;
    destruct (run (db s) st) as [[d1 r1]|] eqn:E1; [|contradiction]
  end.
  destruct (Z.eqb_spec (lastrowid r1) 0) as [E0|_];
    [|apply videos_and_commit_ok].
  pose proof (always_executes d1 (SelectWordId gloss)) as Hne2.
  destruct (run d1 (SelectWordId gloss)) as [[d2 r2]|] eqn:E2;
    [|contradiction].
  pose proof (words_get_ids _ _ _ _ _ _ _ E1 E0 E2) as Hf.
  destruct (fetchone r2); [apply videos_and_commit_ok | contradiction].
Qed.

Lemma insert_entries_ok (data : list Entry) :
  forall tw tv sk (s : State DB),
  exists c s', insert_entries data tw tv sk s = (inl c, s').
Proof.
  induction data as [|entry rest IH]; intros tw tv sk s.
  - cbn. unfold ret. eauto.
  - destruct (is_skipped entry) eqn:Esk.
    + rewrite insert_entries_skip by exact Esk. apply IH.
    + rewrite insert_entries_word by exact Esk. unfold bindM.
      destruct (insert_word_ok (get (gloss entry))
                  (inserted_instances entry) tw tv s) as (p & s1 & ->).
      apply IH.
Qed.

(** X20: on a server that executes every statement and gives every word
    an id, through [lastrowid] or, when that is 0, through the row of the
    SELECT, the method finishes, whatever the data: it reaches the final
    commit and prints its summary. *)
Theorem ingestion_finishes (data : list Entry) (s : State DB) :
  exists tw sk tv s',
    insert_words_and_videos data s = Finished tw sk tv s'.
Proof.
  unfold insert_words_and_videos, try_block, bindM.
  destruct (insert_entries_ok data 0 0 0 s) as ([[tw tv] sk] & s1 & ->).
  destruct (execute_ok Commit s1) as (r & s2 & ->).
  unfold ret. eauto.
Qed.

End Reliable.

Lemma splits_of_app (l1 l2 : list Executed) :
  splits_of (l1 ++ l2) = (splits_of l1 ++ splits_of l2)%list.
Proof. apply flat_map_app. Qed.

Lemma insert_videos_splits (instances : list Instance) :
  forall gloss wid idx tv (s s' : State DB) tv',
  insert_videos gloss wid instances idx tv s = (inl tv', s') ->
  splits_of (log s')
  = (splits_of (log s)
     ++ map (fun k => assign_split (random k))
            (seq (draws s) (List.length instances)))%list.
Proof.
  induction instances as [|instance rest IH];
    intros gloss wid idx tv s s' tv'.
  - cbn. unfold ret. intro E. injection E as _ <-.
    rewrite app_nil_r. reflexivity.
  - rewrite insert_videos_cons. cbv zeta.
    destruct (run (db s) _) as [[d r]|]; [|discriminate].
    intro E. apply IH in E. rewrite E. cbn [log draws].
    rewrite splits_of_app, <- app_assoc. reflexivity.
Qed.

Lemma videos_and_commit_splits gloss wid instances tw1 tv
  (s s' : State DB) p :
  videos_and_commit gloss wid instances tw1 tv s = (inl p, s') ->
  splits_of (log s')
  = (splits_of (log s)
     ++ map (fun k => assign_split (random k))
            (seq (draws s) (List.length instances)))%list
  /\ draws s' = (draws s + List.length instances)%nat.
Proof.
  unfold videos_and_commit, bindM.
  pose proof (insert_videos_run instances gloss wid 0%nat tv s)
    as (rows & _ & _ & Hres).
  destruct (insert_videos gloss wid instances 0 tv s) as [[tv'|e] s1] eqn:Ev;
    [|discriminate].
  cbn [fst snd] in Hres. destruct Hres as (_ & _ & Hd).
  apply insert_videos_splits in Ev.
  destruct (Z.eqb (tw1 mod 100) 0).
  - rewrite execute_run. destruct (run (db s1) Commit) as [[d r]|];
      [|discriminate].
    unfold ret. intro E. injection E as _ <-. cbn [log draws].
    rewrite splits_of_app, Ev. cbn [splits_of flat_map statement].
    rewrite app_nil_r. split; [reflexivity | exact Hd].
  - unfold ret. intro E. injection E as _ <-.
    split; [exact Ev | exact Hd].
Qed.

Lemma insert_word_splits gloss instances tw tv (s s' : State DB) p :
  insert_word gloss instances tw tv s = (inl p, s') ->
  splits_of (log s')
  = (splits_of (log s)
     ++ map (fun k => assign_split (random k))
            (seq (draws s) (List.length instances)))%list
  /\ draws s' = (draws s + List.length instances)%nat.
Proof.
  rewrite insert_word_cases. cbv zeta.
  destruct (run (db s) _) as [[d1 r1]|]; [|discriminate].
  destruct (Z.eqb (lastrowid r1) 0).
  - destruct (run d1 (SelectWordId gloss)) as [[d2 r2]|]; [|discriminate].
    destruct (fetchone r2); [|discriminate].
    intro E. apply videos_and_commit_splits in E. cbn [log draws] in E.
    rewrite !splits_of_app in E. cbn [splits_of flat_map statement] in E.
    rewrite !app_nil_r in E. exact E.
  - intro E. apply videos_and_commit_splits in E. cbn [log draws] in E.
    rewrite !splits_of_app in E. cbn [splits_of flat_map statement] in E.
    rewrite !app_nil_r in E. exact E.
Qed.

Lemma insert_entries_splits (data : list Entry) :
  forall tw tv sk (s s' : State DB) c,
  insert_entries data tw tv sk s = (inl c, s') ->
  splits_of (log s')
  = (splits_of (log s)
     ++ map (fun k => assign_split (random k))
            (seq (draws s)
                 (List.length (flat_map inserted_instances data))))%list.
Proof.
  induction data as [|entry rest IH]; intros tw tv sk s s' c.
  - cbn. unfold ret. intro E. injection E as _ <-.
    rewrite app_nil_r. reflexivity.
  - destruct (is_skipped entry) eqn:Esk.
    + rewrite insert_entries_skip by exact Esk. intro E.
      apply IH in E. rewrite E. cbn [flat_map].
      unfold is_skipped in Esk.
      destruct (inserted_instances entry); [reflexivity | discriminate].
    + rewrite insert_entries_word by exact Esk. unfold bindM.
      destruct (insert_word _ _ tw tv s) as [[p|e] s1] eqn:Ew;
        [|discriminate].
      apply insert_word_splits in Ew. destruct Ew as [Es Ed].
      intro E. apply IH in E. rewrite E, Es, Ed.
      cbn [flat_map]. rewrite length_app, seq_app, map_app, <- app_assoc.
      reflexivity.
Qed.

(** X22: the splits follow the random draws.  In a run that finishes,
    the n-th video row inserted carries the split decided by the n-th
    call of [random.random()] made during the run: train below 0.70, val
    below 0.85, test otherwise; no draw is skipped or used twice. *)
Theorem ingestion_splits (data : list Entry) (s s' : State DB)
  (tw sk tv : Z) :
  insert_words_and_videos data s = Finished tw sk tv s' ->
  splits_of (log s')
  = (splits_of (log s)
     ++ map (fun k => assign_split (random k))
            (seq (draws s) (Z.to_nat tv)))%list.
Proof.
  intro Hout.
  destruct (ingestion_summary_facts data s s' tw sk tv Hout) as [Etv _].
  revert Hout. unfold insert_words_and_videos, try_block, bindM.
  destruct (insert_entries data 0 0 0 s) as [[[[tw0 tv0] sk0]|[|]] s1] eqn:Ee.
  - apply insert_entries_splits in Ee.
    rewrite execute_run.
    destruct (run (db s1) Commit) as [[d r]|].
    + unfold ret. intro E. injection E as _ _ _ <-. cbn [log].
      rewrite splits_of_app, Ee. cbn [splits_of flat_map statement].
      rewrite app_nil_r, Etv, Nat2Z.id. reflexivity.
    + rewrite execute_run. destruct (run (db s1) Rollback) as [[d r]|];
        discriminate.
  - rewrite execute_run. destruct (run (db s1) Rollback) as [[d r]|];
      discriminate.
  - discriminate.
Qed.

End Runs.

Lemma ingestion_summary_witness :
  insert_words_and_videos example_data initial_state
  = Finished 2 1 3 example_finished
  /\ 2 = Z.of_nat (List.length
                     (filter (fun e => negb (is_skipped e)) example_data))
  /\ 1 = Z.of_nat (List.length (filter is_skipped example_data))
  /\ 2 + 1 = Z.of_nat (List.length example_data)
  /\ 3 = Z.of_nat (List.length (flat_map inserted_instances example_data))
  /\ draws example_finished = (draws initial_state + Z.to_nat 3)%nat.
Proof.
  assert (E : insert_words_and_videos example_data initial_state
              = Finished 2 1 3 example_finished) by reflexivity.
  split; [exact E|].
  exact (ingestion_summary example_data initial_state example_finished
           2 1 3 E).
Defined.

Lemma ingestion_statements_witness :
  insert_words_and_videos example_data initial_state
  = Finished 2 1 3 example_finished
  /\ exists L,
       log example_finished = (log initial_state ++ L)%list
       /\ Z.of_nat (count_statements is_insert_word L) = 2
       /\ Z.of_nat (count_statements is_insert_video L) = 3
       /\ Z.of_nat (count_statements is_commit L) = 2 / 100 + 1
       /\ count_statements is_rollback L = 0%nat
       /\ exists L0 r,
            L = (L0 ++ [{| statement := Commit; reply := r |}])%list.
Proof.
  assert (E : insert_words_and_videos example_data initial_state
              = Finished 2 1 3 example_finished) by reflexivity.
  split; [exact E|].
  exact (ingestion_statements example_data initial_state example_finished
           2 1 3 E).
Defined.

Lemma ingestion_log_consistent_witness :
  insert_words_and_videos example_data initial_state
  = Finished 2 1 3 example_finished
  /\ exists L,
       log example_finished = (log initial_state ++ L)%list
       /\ consistent None 0 L = true.
Proof.
  assert (E : insert_words_and_videos example_data initial_state
              = Finished 2 1 3 example_finished) by reflexivity.
  split; [exact E|].
  exact (ingestion_log_consistent example_data initial_state
           example_finished 2 1 3 E).
Defined.

Lemma ingestion_failure_rolls_back_witness :
  @try_block nat (failing_server 2) example_data initial_state
  = (inr Error,
     snd (@try_block nat (failing_server 2) example_data initial_state))
  /\ @insert_words_and_videos nat (failing_server 2) example_data
       initial_state
     = RolledBack example_rolled_back
  /\ exists L,
       log (snd (@try_block nat (failing_server 2) example_data
                   initial_state))
       = (log initial_state ++ L)%list
       /\ count_statements is_rollback L = 0%nat
       /\ Z.of_nat (count_statements is_commit L)
          <= Z.of_nat (count_statements is_insert_word L) / 100
          <= Z.of_nat (count_statements is_commit L) + 1.
Proof.
  assert (E : @try_block nat (failing_server 2) example_data initial_state
              = (inr Error,
                 snd (@try_block nat (failing_server 2) example_data
                        initial_state))) by reflexivity.
  split; [exact E|].
  exact (@ingestion_failure_rolls_back nat (failing_server 2)
           example_data initial_state _ E).
Defined.

Lemma ingestion_type_error_witness :
  log example_type_error
  = (log initial_state
     ++ [ {| statement := InsertWord (Some "book"%string) 2;
             reply := {| lastrowid := 0; fetchone := None |} |} ]
     ++ {| statement := SelectWordId (Some "book"%string);
           reply := {| lastrowid := 0; fetchone := None |} |} :: [])%list
  /\ @insert_words_and_videos nat forgetful_server example_data
       initial_state
     = Uncaught TypeError example_type_error
  /\ @nil Executed = []
  /\ count_statements is_rollback
       [ {| statement := InsertWord (Some "book"%string) 2;
            reply := {| lastrowid := 0; fetchone := None |} |} ] = 0%nat
  /\ exists L0 iw n,
       [ {| statement := InsertWord (Some "book"%string) 2;
            reply := {| lastrowid := 0; fetchone := None |} |} ]
       = (L0 ++ [iw])%list
       /\ statement iw = InsertWord (Some "book"%string) n
       /\ lastrowid (reply iw) = 0.
Proof.
  assert (E : log example_type_error
              = (log initial_state
                 ++ [ {| statement := InsertWord (Some "book"%string) 2;
                         reply := {| lastrowid := 0; fetchone := None |} |} ]
                 ++ {| statement := SelectWordId (Some "book"%string);
                       reply := {| lastrowid := 0; fetchone := None |} |}
                    :: [])%list) by reflexivity.
  split; [exact E|].
  exact (@ingestion_type_error nat forgetful_server
           example_data initial_state _ _ _ (Some "book"%string)
           E eq_refl eq_refl).
Defined.

Lemma ingestion_finishes_witness :
  (forall (d : nat) (st : Statement), run d st <> None)
  /\ (forall (d : nat) g n d1 r1 (d2 : nat) r2,
        run d (InsertWord g n) = Some (d1, r1) -> lastrowid r1 = 0 ->
        run d1 (SelectWordId g) = Some (d2, r2) -> fetchone r2 <> None)
  /\ exists tw sk tv s',
       insert_words_and_videos example_data initial_state
       = Finished tw sk tv s'.
Proof.
  assert (H1 : forall (d : nat) (st : Statement), run d st <> None)
    by (intros d st; discriminate).
  assert (H2 : forall (d : nat) g n d1 r1 (d2 : nat) r2,
             run d (InsertWord g n) = Some (d1, r1) -> lastrowid r1 = 0 ->
             run d1 (SelectWordId g) = Some (d2, r2) -> fetchone r2 <> None).
  { intros d g n d1 r1 d2 r2 E1 E0. cbn in E1. injection E1 as _ <-.
    cbn in E0. lia. }
  split; [exact H1|]. split; [exact H2|].
  exact (@ingestion_finishes nat counting_server H1 H2
           example_data initial_state).
Defined.

Lemma ingestion_splits_witness :
  insert_words_and_videos example_data initial_state
  = Finished 2 1 3 example_finished
  /\ splits_of (log example_finished)
     = (splits_of (log initial_state)
        ++ map (fun k => assign_split (random k))
               (seq (draws initial_state) (Z.to_nat 3)))%list.
Proof.
  assert (E : insert_words_and_videos example_data initial_state
              = Finished 2 1 3 example_finished) by reflexivity.
  split; [exact E|].
  exact (ingestion_splits example_data initial_state example_finished
           2 1 3 E).
Defined.

Lemma append_inj_l (p a b : string) :
  (p ++ a)%string = (p ++ b)%string -> a = b.
Proof.
  induction p as [|c p IH]; cbn [append]; intro E; [exact E|].
  injection E as E. apply IH. exact E.
Qed.

(** X21: the video ids the method makes up are distinct.  Two instances
    of one word that carry no [video_id] get the default ids
    [f"{gloss}_{idx}"] of their two indices, and these differ. *)
Theorem default_video_ids_distinct (gloss : option string) (i j : nat) :
  i <> j -> default_video_id gloss i <> default_video_id gloss j.
Proof.
  intros Hij E. apply Hij. unfold default_video_id in E.
  apply append_inj_l in E. apply append_inj_l in E.
  apply DecimalNat.Unsigned.to_uint_inj.
  assert (Some (Nat.to_uint i) = Some (Nat.to_uint j)) as E'.
  { rewrite <- !DecimalString.NilEmpty.usu. rewrite E. reflexivity. }
  injection E' as E'. exact E'.
Qed.

Lemma default_video_ids_distinct_witness :
  9%nat <> 10%nat
  /\ default_video_id (Some "book"%string) 9
     <> default_video_id (Some "book"%string) 10.
Proof.
  assert (H : 9%nat <> 10%nat) by discriminate.
  split; [exact H|].
  exact (default_video_ids_distinct (Some "book"%string) 9 10 H).
Defined.

End populate_database_facts.
